(** * Resume scoring engine and job matcher

    A shallow embedding of [scoring.py] ([ResumeScorer]) and, from
    [main.py], of the [match_resume_to_job] handler, of the two handlers
    that score a stored resume, and of the cutting of a model's answer at
    its Markdown fences.

    Conventions of the embedding:
    - Python [str] is [string]; [str.lower] acts on the ASCII letters only.
    - Python [int] is [Z]; Python [float] is the kernel's binary64 [float],
      specified through [Prim2SF] and [spec_float].
    - Python [set] of strings is [gset string]; [list(s)] of a set is
      [elements s] (the iteration order of a set is unspecified).
    - A raised exception is [Raise e] in the [result] monad.
    - spaCy, textstat and LanguageTool are third-party engines: they are the
      fields [nlp], [flesch_reading_ease] and [tool_check] of the record
      [Scoring.ResumeScorer]. *)

From Stdlib Require Import ZArith Floats String Ascii List Lia DecimalString.
From stdpp Require Import base gmap sets strings.
Import ListNotations.

Open Scope string_scope.
Open Scope Z_scope.

(** ** Exceptions *)

Inductive exn : Type :=
  | PyError (name : string)
  | HTTPException (status_code : Z) (detail : string).

Inductive result (A : Type) : Type :=
  | Ok (a : A)
  | Raise (e : exn).

Arguments Ok {A} a.
Arguments Raise {A} e.

#[global] Instance result_ret : MRet result := fun A a => Ok a.
#[global] Instance result_bind : MBind result := fun A B k m =>
  match m with
  | Ok a => k a
  | Raise e => Raise e
  end.

Definition ValueError : exn := PyError "ValueError".
Definition OverflowError : exn := PyError "OverflowError".

(** ** Strings *)

Module Str.

(** [c.lower()] on one ASCII character. *)
Definition lower_ascii (c : ascii) : ascii :=
  let n := nat_of_ascii c in
  if (Nat.leb 65 n && Nat.leb n 90)%bool then ascii_of_nat (n + 32) else c.

(** [s.lower()]. *)
Fixpoint lower (s : string) : string :=
  match s with
  | EmptyString => EmptyString
  | String c s' => String (lower_ascii c) (lower s')
  end.

(** [needle in hay] for two strings: contiguous substring. *)
Fixpoint contains (needle hay : string) : bool :=
  (String.prefix needle hay ||
   match hay with
   | EmptyString => false
   | String _ hay' => contains needle hay'
   end)%bool.

(** Whether [s] has an ASCII whitespace character (space, tab, line feed,
    vertical tab, form feed, carriage return). *)
Definition is_space (c : ascii) : bool :=
  let n := nat_of_ascii c in
  (Nat.eqb n 32 || (Nat.leb 9 n && Nat.leb n 13))%bool.

Fixpoint has_whitespace (s : string) : bool :=
  match s with
  | EmptyString => false
  | String c s' => (is_space c || has_whitespace s')%bool
  end.

(** [str(n)] for a length. *)
Definition of_nat (n : nat) : string :=
  NilZero.string_of_uint (Nat.to_uint n).

End Str.

(** ** Binary64 arithmetic as Python uses it *)

Module Float.

(** [float(n)] for the [int]s the program converts: scores and lengths. *)
Definition of_Z (n : Z) : float := PrimFloat.of_uint63 (Uint63.of_Z n).

(** The literals [0.4], [0.3] and [100] of the source. *)
Definition c0_4 : float := 0x1.999999999999ap-2%float.
Definition c0_3 : float := 0x1.3333333333333p-2%float.
Definition c100 : float := 100%float.
Definition c60 : float := 60%float.
Definition c0 : float := 0%float.

(** Integer part of [m * 2^e], [m] positive, towards zero. *)
Definition trunc_pos (m : positive) (e : Z) : Z :=
  match e with
  | Zneg p => Z.shiftr (Zpos m) (Zpos p)
  | _ => Z.shiftl (Zpos m) e
  end.

(** [m * 2^e] rounded to the nearest integer, ties to the even one. *)
Definition round_pos (m : positive) (e : Z) : Z :=
  match e with
  | Zneg p =>
      let q := Z.shiftr (Zpos m) (Zpos p) in
      let r := Z.land (Zpos m) (Z.ones (Zpos p)) in
      match Z.compare (2 * r) (Z.shiftl 1 (Zpos p)) with
      | Lt => q
      | Gt => q + 1
      | Eq => if Z.even q then q else q + 1
      end
  | _ => Z.shiftl (Zpos m) e
  end.

Definition cond_Zopp (s : bool) (z : Z) : Z := if s then - z else z.

(** [int(x)] for a float [x]. *)
Definition py_int (x : float) : result Z :=
  match Prim2SF x with
  | S754_zero _ => Ok 0
  | S754_finite s m e => Ok (cond_Zopp s (trunc_pos m e))
  | S754_infinity _ => Raise OverflowError
  | S754_nan => Raise ValueError
  end.

(** [round(x)] for a float [x]. *)
Definition py_round (x : float) : result Z :=
  match Prim2SF x with
  | S754_zero _ => Ok 0
  | S754_finite s m e => Ok (cond_Zopp s (round_pos m e))
  | S754_infinity _ => Raise OverflowError
  | S754_nan => Raise ValueError
  end.

(** [min(a, x)] and [max(a, x)] of Python keep their first argument unless
    the second compares strictly below, respectively above, it. *)
Definition py_min (a x : float) : float := if PrimFloat.ltb x a then x else a.
Definition py_max (a x : float) : float := if PrimFloat.ltb a x then x else a.

Definition is_finite (x : float) : bool :=
  match Prim2SF x with
  | S754_zero _ | S754_finite _ _ _ => true
  | _ => false
  end.

(** [x] is a zero, or a finite number of magnitude below [2^B] whose
    exponent is at least [lo]. *)
Definition sf_bounded (lo B : Z) (x : spec_float) : Prop :=
  match x with
  | S754_zero _ => True
  | S754_finite _ m e => lo <= e /\ Z.pos (digits2_pos m) + e <= B
  | _ => False
  end.

(** [x] is finite and not a zero, with exponent at least [lo]. *)
Definition sf_nonzero (lo : Z) (x : spec_float) : Prop :=
  match x with
  | S754_finite _ _ e => lo <= e
  | _ => False
  end.

End Float.

(** ** scoring.py *)

Module Scoring.

(** A LanguageTool match; [generate_score] reads [message] and [context]. *)
Record Match : Type := {
  ruleId : string;
  message : string;
  context : string;
  offset : Z
}.

(** The scorer instance: [self.nlp] maps a text to the texts of its tokens,
    [self.tool.check] returns the matches or raises; textstat's
    [flesch_reading_ease] is carried along with them. *)
Record ResumeScorer : Type := {
  nlp : string -> list string;
  tool_check : string -> result (list Match);
  flesch_reading_ease : string -> float
}.

Definition TARGET_SKILLS : list string :=
  [ "python"; "java"; "c++"; "javascript"; "sql"; "html"; "css";
    "react"; "angular"; "vue"; "nodejs"; "django"; "flask"; "git";
    "docker"; "kubernetes"; "aws"; "azure"; "gcp"; "machine learning";
    "deep learning"; "nlp"; "data analysis"; "pandas"; "numpy";
    "scikit-learn"; "tensorflow"; "pytorch"; "api"; "rest";
    "mongodb"; "postgresql"; "mysql" ].

(** One step of the token loop. *)
Definition add_token (found_skills : gset string) (token : string) : gset string :=
  if bool_decide (token ∈ TARGET_SKILLS) then {[ token ]} ∪ found_skills
  else found_skills.

(** One step of the phrase loop, for the lower-cased text [lowered]. *)
Definition add_phrase (lowered : string) (found_skills : gset string)
    (skill : string) : gset string :=
  if (Str.contains " " skill && Str.contains skill lowered)%bool
  then {[ skill ]} ∪ found_skills
  else found_skills.

Definition found_skills (self : ResumeScorer) (text : string) : gset string :=
  let doc := nlp self (Str.lower text) in
  let found := foldl add_token ∅ doc in
  foldl (add_phrase (Str.lower text)) found TARGET_SKILLS.

Definition analyze_skills (self : ResumeScorer) (text : string) : list string :=
  elements (found_skills self text).

Definition calculate_readability (self : ResumeScorer) (text : string) : float :=
  let score := flesch_reading_ease self text in
  Float.py_max Float.c0 (Float.py_min Float.c100 score).

Definition check_grammar (self : ResumeScorer) (text : string)
    : result (Z * list Match) :=
  matches ← tool_check self text;
  let num_errors := Z.of_nat (length matches) in
  let score := Z.max 0 (100 - num_errors * 5) in
  mret (score, matches).

Record Feedback : Type := {
  skills : string;
  readability : string;
  grammar : string
}.

Record GrammarError : Type := {
  error_message : string;
  error_context : string
}.

Record ScoreReport : Type := {
  overall_score : Z;
  skills_score : Z;
  readability_score : Z;
  grammar_score : Z;
  matched_skills : list string;
  missing_skills : list string;
  feedback : Feedback;
  grammar_errors : list GrammarError
}.

(** [round(n)] of an [int] is the [int]. *)
Definition round_int (n : Z) : Z := n.

Definition final_score (skills_score : Z) (readability_score : float)
    (grammar_score : Z) : float :=
  (Float.of_Z skills_score * Float.c0_4
   + readability_score * Float.c0_3
   + Float.of_Z grammar_score * Float.c0_3)%float.

Definition generate_score (self : ResumeScorer) (resume_text : string)
    : result ScoreReport :=
  let matched_skills := analyze_skills self resume_text in
  let readability_score := calculate_readability self resume_text in
  '(grammar_score, grammar_errors) ← check_grammar self resume_text;
  let skills_score := Z.min 100 (Z.of_nat (length matched_skills) * 10) in
  let final_score := final_score skills_score readability_score grammar_score in
  let feedback := {|
    skills :=
      if 50 <? skills_score then "Great job on listing relevant skills!"
      else "Consider adding more industry-standard skills.";
    readability :=
      if PrimFloat.ltb Float.c60 readability_score
      then "Your resume is easy to read."
      else "Try using shorter sentences and simpler words.";
    grammar :=
      if 80 <? grammar_score then "Excellent grammar!"
      else "Found " +:+ Str.of_nat (length grammar_errors) +:+ " grammar issues."
  |} in
  overall ← Float.py_round final_score;
  readability_rounded ← Float.py_round readability_score;
  mret {|
    overall_score := overall;
    skills_score := round_int skills_score;
    readability_score := readability_rounded;
    grammar_score := round_int grammar_score;
    matched_skills := matched_skills;
    missing_skills :=
      elements (list_to_set TARGET_SKILLS ∖ list_to_set matched_skills
                : gset string);
    feedback := feedback;
    grammar_errors :=
      map (fun m => {| error_message := message m; error_context := context m |})
          (take 10 grammar_errors)
  |}.

End Scoring.

(** ** main.py: the job-matching handler *)

Module Main.

Record Skill : Type := { name : string }.

(** The columns of [models.Resume] and [models.JobPosting] the handler
    reads.  The [required_skills] text column holds a JSON array of
    strings; it is represented by the list [json.loads] decodes it to. *)
Record Resume : Type := {
  resume_pk : Z;
  skills : list Skill
}.

Record JobPosting : Type := {
  job_pk : Z;
  required_skills : list string
}.

(** A row of [models.ResumeJobMatch]; [matched_skills] is the list that
    [json.dumps] encodes. *)
Record ResumeJobMatch : Type := {
  resume_id : Z;
  job_id : Z;
  match_score : Z;
  matched_skills : list string;
  created_at : string
}.

Record DB : Type := {
  resumes : list Resume;
  job_postings : list JobPosting;
  resume_job_matches : list ResumeJobMatch
}.

(** The dictionary the handler returns. *)
Record JobMatchReport : Type := {
  report_match_score : Z;
  report_matched_skills : list string;
  report_missing_skills : list string;
  total_required : Z;
  total_matched : Z
}.

(** [len(matched) / len(required_skills) * 100] *)
Definition percentage (n_matched n_required : nat) : float :=
  (Float.of_Z (Z.of_nat n_matched) / Float.of_Z (Z.of_nat n_required)
   * Float.c100)%float.

Definition match_resume_to_job (rid jid : Z) (now : string) (db : DB)
    : result (JobMatchReport * DB) :=
  let resume := List.find (fun r => resume_pk r =? rid) (resumes db) in
  let job := List.find (fun j => job_pk j =? jid) (job_postings db) in
  match resume, job with
  | Some resume, Some job =>
      let resume_skills : gset string :=
        list_to_set (map (fun skill => Str.lower (name skill)) (skills resume)) in
      let required_skills : gset string :=
        list_to_set (map Str.lower (required_skills job)) in
      let matched := resume_skills ∩ required_skills in
      let match_percentage :=
        if bool_decide (required_skills ≠ ∅)
        then percentage (size matched) (size required_skills)
        else Float.c0 in
      stored_score ← Float.py_int match_percentage;
      let db_match := {|
        resume_id := rid;
        job_id := jid;
        match_score := stored_score;
        matched_skills := elements matched;
        created_at := now
      |} in
      let db' := {|
        resumes := resumes db;
        job_postings := job_postings db;
        resume_job_matches := (resume_job_matches db ++ [db_match])%list
      |} in
      returned_score ← Float.py_int match_percentage;
      mret ({|
        report_match_score := returned_score;
        report_matched_skills := elements matched;
        report_missing_skills := elements (required_skills ∖ resume_skills);
        total_required := Z.of_nat (size required_skills);
        total_matched := Z.of_nat (size matched)
      |}, db')
  | _, _ => Raise (HTTPException 404 "Resume or Job not found")
  end.

End Main.

(** ** Concrete engines for the examples *)

Module Examples.

(** A tokenizer that splits at spaces and makes [.], [,], [;], [:], [!] and
    [?] tokens of their own. *)
Definition is_punct (c : ascii) : bool :=
  existsb (Ascii.eqb c) ["."; ","; ";"; ":"; "!"; "?"]%char.

Definition flush (cur : string) (acc : list string) : list string :=
  match cur with
  | EmptyString => acc
  | _ => (acc ++ [cur])%list
  end.

Fixpoint tokens_from (s cur : string) (acc : list string) : list string :=
  match s with
  | EmptyString => flush cur acc
  | String c s' =>
      if Ascii.eqb c " " then tokens_from s' "" (flush cur acc)
      else if is_punct c
           then tokens_from s' "" (flush cur acc ++ [String c ""])%list
           else tokens_from s' (cur +:+ String c "") acc
  end.

Definition simple_nlp (text : string) : list string := tokens_from text "" [].

Definition quiet_scorer (readability : float) : Scoring.ResumeScorer := {|
  Scoring.nlp := simple_nlp;
  Scoring.tool_check := fun _ => Ok [];
  Scoring.flesch_reading_ease := fun _ => readability
|}.

Definition mk_match (msg : string) : Scoring.Match := {|
  Scoring.ruleId := "RULE";
  Scoring.message := msg;
  Scoring.context := "...";
  Scoring.offset := 0
|}.

(** A scorer whose grammar engine reports [n] matches on every text. *)
Definition noisy_scorer (n : nat) : Scoring.ResumeScorer := {|
  Scoring.nlp := simple_nlp;
  Scoring.tool_check := fun _ => Ok (replicate n (mk_match "Possible spelling mistake"));
  Scoring.flesch_reading_ease := fun _ => 50%float
|}.

(** A scorer whose grammar engine cannot be reached. *)
Definition EngineUnavailable : exn := PyError "EngineUnavailable".

Definition down_scorer : Scoring.ResumeScorer := {|
  Scoring.nlp := simple_nlp;
  Scoring.tool_check := fun _ => Raise EngineUnavailable;
  Scoring.flesch_reading_ease := fun _ => 50%float
|}.

Definition skills_text : string :=
  "I have experience in Python and also Machine Learning techniques.".

Definition skills_tokens : list string :=
  ["i"; "have"; "experience"; "in"; "python"; "and"; "also"; "machine";
   "learning"; "techniques"; "."].

Definition job_db (candidate required : list string) : Main.DB := {|
  Main.resumes :=
    [ {| Main.resume_pk := 1; Main.skills := map Main.Build_Skill candidate |} ];
  Main.job_postings :=
    [ {| Main.job_pk := 7; Main.required_skills := required |} ];
  Main.resume_job_matches := []
|}.

End Examples.

(** ** main.py: the two scoring handlers *)

Module Analysis.

(** The columns the handlers read; a nullable column is an [option]. *)
Record WorkExperience : Type := { description : option string }.

Record Project : Type := {
  project_name : option string;
  project_description : option string
}.

Record Education : Type := {
  institution : option string;
  degree : option string
}.

Record Resume : Type := {
  resume_pk : Z;
  summary : option string;
  skills : list Main.Skill;
  work_experiences : list WorkExperience;
  projects : list Project;
  educations : list Education
}.

Record PersonalInfo : Type := {
  info_name : option string;
  email : option string;
  phone : option string;
  info_resume_id : option Z
}.

(** A row of [models.ResumeScore]. *)
Record ResumeScore : Type := {
  score_resume_id : Z;
  overall_score : Z;
  skills_score : Z;
  readability_score : Z;
  grammar_score : Z;
  analysis_date : string
}.

Record DB : Type := {
  resumes : list Resume;
  personal_info : list PersonalInfo;
  resume_scores : list ResumeScore
}.

Definition nl : string := String (ascii_of_nat 10) "".

(** [x or ''] for a nullable text. *)
Definition or_empty (x : option string) : string :=
  match x with
  | Some s => s
  | None => ""
  end.

(** [{x}] in an f-string, for a nullable text. *)
Definition fmt (x : option string) : string :=
  match x with
  | Some s => s
  | None => "None"
  end.

(** The text [/resumes/{resume_id}/analyze] scores. *)
Definition resume_text (r : Resume) : string :=
  nl +:+ "    " +:+ or_empty (summary r) +:+ nl
  +:+ "    " +:+ String.concat " " (map Main.name (skills r)) +:+ nl
  +:+ "    " +:+ String.concat " "
                   (map (fun exp => or_empty (description exp)) (work_experiences r))
  +:+ nl +:+ "    ".

(** The row of one analysis. *)
Definition score_row (rid : Z) (analysis : Scoring.ScoreReport) (now : string)
    : ResumeScore := {|
  score_resume_id := rid;
  overall_score := Scoring.overall_score analysis;
  skills_score := Scoring.skills_score analysis;
  readability_score := Scoring.readability_score analysis;
  grammar_score := Scoring.grammar_score analysis;
  analysis_date := now
|}.

(** Assigning the five attributes of the first row of resume [rid]. *)
Fixpoint update_first (rid : Z) (new : ResumeScore) (rows : list ResumeScore)
    : list ResumeScore :=
  match rows with
  | [] => []
  | row :: rows' =>
      if score_resume_id row =? rid then new :: rows'
      else row :: update_first rid new rows'
  end.

(** The statements that store the score, the same in both handlers. *)
Definition save_score (rid : Z) (analysis : Scoring.ScoreReport) (now : string)
    (db : DB) : DB :=
  let existing_score :=
    List.find (fun s => score_resume_id s =? rid) (resume_scores db) in
  {| resumes := resumes db;
     personal_info := personal_info db;
     resume_scores :=
       match existing_score with
       | Some _ => update_first rid (score_row rid analysis now) (resume_scores db)
       | None => (resume_scores db ++ [score_row rid analysis now])%list
       end |}.

(** [POST /resumes/{resume_id}/analyze] *)
Definition analyze_resume (scorer : Scoring.ResumeScorer) (now : string)
    (resume_id : Z) (db : DB) : result (Scoring.ScoreReport * DB) :=
  match List.find (fun r => resume_pk r =? resume_id) (resumes db) with
  | None => Raise (HTTPException 404 "Resume not found")
  | Some db_resume =>
      analysis ← Scoring.generate_score scorer (resume_text db_resume);
      mret (analysis, save_score resume_id analysis now db)
  end.

(** The text [/analyze-resume/{email}] scores. *)
Definition email_resume_text (info : PersonalInfo) (r : Resume) : string :=
  let head :=
    nl +:+ "        Name: " +:+ fmt (info_name info) +:+ nl
    +:+ "        Email: " +:+ fmt (email info) +:+ nl
    +:+ "        Phone: " +:+ fmt (phone info) +:+ nl
    +:+ "        " +:+ nl
    +:+ "        Skills: " +:+ String.concat ", " (map Main.name (skills r)) +:+ nl
    +:+ "        " +:+ nl
    +:+ "        Projects:" +:+ nl
    +:+ "        " in
  let with_projects :=
    foldl (fun text project =>
             text +:+ nl +:+ fmt (project_name project) +:+ ": "
             +:+ fmt (project_description project))
          head (projects r) in
  foldl (fun text edu =>
           text +:+ nl +:+ fmt (degree edu) +:+ " at " +:+ fmt (institution edu))
        with_projects (educations r).

(** The body of the [try] of [POST /analyze-resume/{email}]. *)
Definition analyze_by_email_body (scorer : Scoring.ResumeScorer) (now : string)
    (addr : string) (db : DB) : result (Scoring.ScoreReport * DB) :=
  match List.find (fun i => bool_decide (email i = Some addr)) (personal_info db) with
  | None => Raise (HTTPException 404 "Resume not found")
  | Some info =>
      match info_resume_id info with
      | None => Raise (PyError "AttributeError")
      | Some rid =>
          match List.find (fun r => resume_pk r =? rid) (resumes db) with
          | None => Raise (PyError "AttributeError")
          | Some resume =>
              score_data ←
                Scoring.generate_score scorer (email_resume_text info resume);
              mret (score_data, save_score (resume_pk resume) score_data now db)
          end
      end
  end.

(** [POST /analyze-resume/{email}]: [except Exception as e] turns whatever
    the body raises into a 500 whose detail is [str(e)]. *)
Definition analyze_resume_by_email (str : exn -> string)
    (scorer : Scoring.ResumeScorer) (now : string) (addr : string) (db : DB)
    : result (Scoring.ScoreReport * DB) :=
  match analyze_by_email_body scorer now addr db with
  | Ok v => Ok v
  | Raise e => Raise (HTTPException 500 (str e))
  end.

End Analysis.

(** ** A small database for the examples *)

Module AnalysisExamples.
Import Analysis.

Definition ada : Resume := {|
  resume_pk := 1;
  summary := Some "Engineer with Python and SQL experience.";
  skills := [ Main.Build_Skill "Python"; Main.Build_Skill "Docker" ];
  work_experiences := [ {| description := Some "Built machine learning services." |};
                        {| description := None |} ];
  projects := [ {| project_name := Some "Parser"; project_description := None |} ];
  educations := [ {| institution := Some "MIT"; degree := Some "BSc" |} ]
|}.

Definition ada_info : PersonalInfo := {|
  info_name := Some "Ada";
  email := Some "ada@example.org";
  phone := None;
  info_resume_id := Some 1
|}.

Definition old_row : ResumeScore := {|
  score_resume_id := 1;
  overall_score := 10;
  skills_score := 10;
  readability_score := 10;
  grammar_score := 10;
  analysis_date := "2026-01-01"
|}.

Definition other_row : ResumeScore := {|
  score_resume_id := 2;
  overall_score := 70;
  skills_score := 60;
  readability_score := 80;
  grammar_score := 75;
  analysis_date := "2026-02-02"
|}.

Definition db0 : DB := {|
  resumes := [ ada ];
  personal_info := [ ada_info ];
  resume_scores := [ other_row; old_row ]
|}.

(** [str(e)], as far as the examples need it. *)
Definition str (e : exn) : string :=
  match e with
  | PyError name => name
  | HTTPException code detail =>
      Str.of_nat (Z.to_nat code) +:+ ": " +:+ detail
  end.

End AnalysisExamples.

(** ** main.py: taking the JSON out of a model's answer

    [parse_resume_with_gemini] and [get_resume_suggestions] both cut the
    answer at the Markdown fences before decoding it. *)

Module Fence.

(** [s.split(sep)] for a non-empty [sep]: the pieces between the
    occurrences of [sep], found from the left without overlap.  [skip]
    counts the characters of a separator still to pass, [cur] is the
    piece being read. *)
Fixpoint split_from (sep : string) (skip : nat) (cur s : string) : list string :=
  match s with
  | EmptyString => [cur]
  | String c s' =>
      match skip with
      | S k => split_from sep k cur s'
      | O =>
          if String.prefix sep s
          then cur :: split_from sep (String.length sep - 1) "" s'
          else split_from sep 0 (cur +:+ String c "") s'
      end
  end.

Definition split (sep s : string) : list string := split_from sep 0 "" s.

Definition fence_json : string := "```json".
Definition fence : string := "```".

(** The text between the fences: [text.split("```json")[1].split("```")[0]]
    when the opening fence occurs, the text itself otherwise.  The two
    subscripts cannot fail: the first list has two items at least when the
    fence occurs, the second has one. *)
Definition unfence (text : string) : string :=
  if Str.contains fence_json text
  then nth 0 (split fence (nth 1 (split fence_json text) "")) ""
  else text.

(** No occurrence of [sep] in [pre +:+ tail] starts inside [pre]. *)
Fixpoint no_early (sep pre tail : string) : bool :=
  match pre with
  | EmptyString => true
  | String c pre' =>
      (negb (String.prefix sep (pre +:+ tail)) && no_early sep pre' tail)%bool
  end.

End Fence.

(** ** The pairs on which the binary64 percentage falls short *)

Module MatchTable.

(** [(matched, required)] sizes, up to 100 required skills, on which
    [int(matched / required * 100)] is one less than the integer quotient
    of [100 * matched] by [required]. *)
Definition short_pairs : list (nat * nat) :=
  [ (29, 50); (29, 100); (57, 100); (58, 100) ]%nat.

Definition is_short (m n : nat) : bool :=
  existsb (fun '(a, b) => (Nat.eqb a m && Nat.eqb b n)%bool) short_pairs.

Definition expected (m n : nat) : Z :=
  100 * Z.of_nat m / Z.of_nat n - (if is_short m n then 1 else 0).

Definition agrees (m n : nat) : bool :=
  match Float.py_int (Main.percentage m n) with
  | Ok z => z =? expected m n
  | Raise _ => false
  end.

Definition agrees_upto (bound : nat) : bool :=
  forallb (fun n => forallb (fun m => agrees m n) (seq 0 (S n))) (seq 1 bound).

End MatchTable.

(** * The exception monad *)

Lemma bind_Ok {A B} (f : A -> result B) (a : A) : mbind f (Ok a) = f a.
Proof. reflexivity. Qed.

Lemma bind_Raise {A B} (f : A -> result B) (e : exn) :
  mbind f (Raise e) = Raise e.
Proof. reflexivity. Qed.

(** * Facts about binary64 arithmetic

    The operations of [spec_float] round through [binary_round_aux]; the
    lemmas below bound the magnitude of its result, which is what keeps
    [round] and [int] from raising in the two programs. *)

Module FloatFacts.
Import Float.

Lemma digits2_pos_size p : digits2_pos p = Pos.size p.
Proof. induction p; simpl; congruence. Qed.

Lemma Zdigits2_nonneg m : 0 <= Zdigits2 m.
Proof. destruct m; simpl; lia. Qed.

Lemma Zdigits2_gt m : 0 <= m -> m < 2 ^ Zdigits2 m.
Proof.
  destruct m as [|p|p]; simpl; intros H; try lia.
  rewrite digits2_pos_size.
  pose proof (Pos.size_gt p) as G.
  apply Pos2Z.pos_lt_pos in G. rewrite Pos2Z.inj_pow in G. exact G.
Qed.

Lemma Zdigits2_le_pow m : 0 < m -> 2 ^ (Zdigits2 m - 1) <= m.
Proof.
  destruct m as [|p|p]; intros H; try lia.
  unfold Zdigits2. rewrite digits2_pos_size.
  pose proof (Pos.size_le p) as G.
  apply Pos2Z.pos_le_pos in G. rewrite Pos2Z.inj_pow in G.
  replace (Z.pos (Pos.size p)) with (Z.succ (Z.pos (Pos.size p) - 1)) in G by lia.
  rewrite Z.pow_succ_r in G by lia. lia.
Qed.

Lemma Zdigits2_bound m k : 0 <= m -> 0 <= k -> m < 2 ^ k -> Zdigits2 m <= k.
Proof.
  intros Hm Hk Hlt.
  destruct (Z.eq_dec m 0) as [->|Hne]; [simpl; lia|].
  destruct (Z_le_gt_dec (Zdigits2 m) k) as [|Hgt]; [assumption|exfalso].
  pose proof (Zdigits2_le_pow m ltac:(lia)) as G.
  assert (2 ^ k <= 2 ^ (Zdigits2 m - 1)) by (apply Z.pow_le_mono_r; lia).
  lia.
Qed.

Lemma Zdigits2_pos m : 0 < m -> 0 < Zdigits2 m.
Proof. destruct m; simpl; lia. Qed.

Lemma shr_1_m r : 0 <= shr_m r -> shr_m (shr_1 r) = shr_m r / 2.
Proof.
  destruct r as [m b s]; cbn [shr_m]; intros H.
  destruct m as [|[p|p|]|p]; cbn [shr_1 shr_m]; try lia; try reflexivity.
  - apply Z.div_unique with 1; lia.
  - apply Z.div_unique with 0; lia.
Qed.

Lemma iter_shr_1_m p : forall r, 0 <= shr_m r ->
  shr_m (SpecFloat.iter_pos shr_1 p r) = shr_m r / 2 ^ Zpos p.
Proof.
  induction p as [p IH|p IH|]; intros r H; cbn [SpecFloat.iter_pos].
  - assert (H1 : 0 <= shr_m (shr_1 r)) by (rewrite shr_1_m by lia; apply Z.div_pos; lia).
    assert (H2 : 0 <= shr_m (SpecFloat.iter_pos shr_1 p (shr_1 r))) by (rewrite IH by lia; apply Z.div_pos; lia).
    rewrite IH, IH, shr_1_m by lia.
    rewrite !Z.div_div by lia. f_equal.
    replace (Z.pos p~1) with (1 + Z.pos p + Z.pos p) by lia.
    rewrite !Z.pow_add_r by lia. lia.
  - assert (H2 : 0 <= shr_m (SpecFloat.iter_pos shr_1 p r)) by (rewrite IH by lia; apply Z.div_pos; lia).
    rewrite IH, IH by lia.
    rewrite !Z.div_div by lia. f_equal.
    replace (Z.pos p~0) with (Z.pos p + Z.pos p) by lia.
    rewrite !Z.pow_add_r by lia. lia.
  - rewrite shr_1_m by lia. reflexivity.
Qed.

Abbreviation fexp64 := (fexp prec emax).

Lemma fexp64_eq x : fexp64 x = Z.max (x - 53) (-1074).
Proof. reflexivity. Qed.

Lemma shr_record_of_loc_m m l : shr_m (shr_record_of_loc m l) = m.
Proof. destruct l as [|[]]; reflexivity. Qed.

Lemma Zdigits2_div m n : 0 <= m -> 0 < n ->
  Zdigits2 (m / 2 ^ n) + n <= Z.max (Zdigits2 m) n.
Proof.
  intros Hm Hn.
  pose proof (Zdigits2_gt m Hm) as G.
  pose proof (Zdigits2_nonneg m) as D.
  assert (P : 0 < 2 ^ n) by (apply Z.pow_pos_nonneg; lia).
  destruct (Z_le_gt_dec n (Zdigits2 m)) as [Hle|Hgt].
  - assert (Zdigits2 (m / 2 ^ n) <= Zdigits2 m - n); [|lia].
    apply Zdigits2_bound; [apply Z.div_pos; lia|lia|].
    apply Z.div_lt_upper_bound; [lia|].
    rewrite <- Z.pow_add_r by lia.
    replace (n + (Zdigits2 m - n)) with (Zdigits2 m) by lia. exact G.
  - assert (2 ^ Zdigits2 m <= 2 ^ n) by (apply Z.pow_le_mono_r; lia).
    rewrite Z.div_small by lia. simpl. lia.
Qed.

Lemma shr_fexp_bound m e l B r e' :
  0 <= m -> Zdigits2 m + e <= B -> -1000 <= B ->
  shr_fexp prec emax m e l = (r, e') ->
  0 <= shr_m r /\ Zdigits2 (shr_m r) + e' <= B /\ e <= e'.
Proof.
  intros Hm HB Hlo. unfold shr_fexp, shr.
  pose proof (fexp64_eq (Zdigits2 m + e)) as F.
  destruct (fexp64 (Zdigits2 m + e) - e) as [|n|n] eqn:En;
    intros [= <- <-]; rewrite ?shr_record_of_loc_m; try lia.
  rewrite iter_shr_1_m by (rewrite shr_record_of_loc_m; lia).
  rewrite shr_record_of_loc_m.
  assert (P : 0 < 2 ^ Z.pos n) by (apply Z.pow_pos_nonneg; lia).
  split; [apply Z.div_pos; lia|].
  pose proof (Zdigits2_div m (Z.pos n) Hm ltac:(lia)). lia.
Qed.

Lemma round_nearest_even_bound m l :
  m <= round_nearest_even m l <= m + 1.
Proof.
  destruct l as [|[]]; simpl; try lia. destruct (Z.even m); lia.
Qed.

Lemma Zdigits2_succ_bound m m' : 0 <= m -> 0 <= m' <= m + 1 ->
  Zdigits2 m' <= Zdigits2 m + 1.
Proof.
  intros Hm Hm'. pose proof (Zdigits2_gt m Hm). pose proof (Zdigits2_nonneg m).
  apply Zdigits2_bound; try lia.
  rewrite Z.pow_add_r by lia. lia.
Qed.

Lemma binary_round_aux_bounded s m e l B :
  0 <= m -> Zdigits2 m + e <= B -> -1000 <= B <= 900 ->
  sf_bounded e (B + 1) (binary_round_aux prec emax s m e l).
Proof.
  intros Hm HB HR. unfold binary_round_aux.
  destruct (shr_fexp prec emax m e l) as [r1 e1] eqn:E1.
  destruct (shr_fexp_bound _ _ _ _ _ _ Hm HB ltac:(lia) E1) as (M1 & D1 & L1).
  pose proof (round_nearest_even_bound (shr_m r1) (loc_of_shr_record r1)) as RB.
  set (m2 := round_nearest_even (shr_m r1) (loc_of_shr_record r1)) in *.
  pose proof (Zdigits2_succ_bound (shr_m r1) m2 M1 ltac:(lia)) as D2.
  destruct (shr_fexp prec emax m2 e1 loc_Exact) as [r3 e3] eqn:E3.
  destruct (shr_fexp_bound m2 e1 loc_Exact (B + 1) _ _ ltac:(lia) ltac:(lia) ltac:(lia) E3)
    as (M3 & D3 & L3).
  destruct (shr_m r3) as [|p|p] eqn:Em3; cbn [sf_bounded]; try lia; try exact I.
  unfold Zdigits2 in D3.
  replace (e3 <=? emax - prec) with true.
  - cbn [sf_bounded]. lia.
  - symmetry. apply Z.leb_le. change (emax - prec) with 971. lia.
Qed.

Lemma sf_bounded_weaken lo lo' B B' x :
  lo' <= lo -> B <= B' -> sf_bounded lo B x -> sf_bounded lo' B' x.
Proof. destruct x; cbn [sf_bounded]; lia. Qed.

Lemma Zdigits2_mul_pos a b :
  Z.pos (digits2_pos (a * b)) <= Z.pos (digits2_pos a) + Z.pos (digits2_pos b).
Proof.
  pose proof (Zdigits2_gt (Z.pos a) ltac:(lia)) as Ga.
  pose proof (Zdigits2_gt (Z.pos b) ltac:(lia)) as Gb.
  change (Zdigits2 (Z.pos (a * b)) <= Zdigits2 (Z.pos a) + Zdigits2 (Z.pos b)).
  pose proof (Zdigits2_nonneg (Z.pos a)). pose proof (Zdigits2_nonneg (Z.pos b)).
  apply Zdigits2_bound; try lia.
  rewrite Z.pow_add_r by lia. rewrite Pos2Z.inj_mul. nia.
Qed.

Lemma SFmul_bounded x y lx Bx ly By :
  sf_bounded lx Bx x -> sf_bounded ly By y -> -1000 <= Bx + By <= 900 ->
  sf_bounded (lx + ly) (Bx + By + 1) (SFmul prec emax x y).
Proof.
  destruct x as [sx|sx| |sx mx ex], y as [sy|sy| |sy my ey];
    cbn [sf_bounded SFmul]; try tauto.
  intros [Lx Hx] [Ly Hy] HR.
  pose proof (Zdigits2_mul_pos mx my) as D.
  eapply sf_bounded_weaken; [| |apply binary_round_aux_bounded with (B := Bx + By)];
    cbn [Zdigits2]; lia.
Qed.

Lemma pos_iter_xO m d : Z.pos (Pos.iter xO m d) = Z.pos m * 2 ^ Z.pos d.
Proof.
  induction d as [|d IH] using Pos.peano_ind.
  - simpl. lia.
  - rewrite Pos.iter_succ, Pos2Z.inj_succ, Z.pow_succ_r by lia.
    change (Z.pos (Pos.iter xO m d)~0) with (2 * Z.pos (Pos.iter xO m d)).
    rewrite IH. lia.
Qed.

Lemma shl_align_spec m e e' :
  let '(m', e'') := shl_align m e e' in
  e'' = Z.min e e' /\ Z.pos m' = Z.pos m * 2 ^ (e - e'').
Proof.
  unfold shl_align. destruct (e' - e) as [|d|d] eqn:E.
  - replace (Z.min e e') with e by lia. rewrite Z.sub_diag. simpl. lia.
  - replace (Z.min e e') with e by lia. rewrite Z.sub_diag. simpl. lia.
  - replace (Z.min e e') with e' by lia. split; [reflexivity|].
    rewrite pos_iter_xO. f_equal. f_equal. lia.
Qed.

Lemma Zdigits2_shift m k : 0 < m -> 0 <= k -> Zdigits2 (m * 2 ^ k) = Zdigits2 m + k.
Proof.
  intros Hm Hk.
  pose proof (Zdigits2_gt m ltac:(lia)) as G.
  pose proof (Zdigits2_le_pow m Hm) as L.
  pose proof (Zdigits2_pos m Hm) as P.
  assert (Q : 0 < 2 ^ k) by (apply Z.pow_pos_nonneg; lia).
  apply Z.le_antisymm.
  - apply Zdigits2_bound; try nia. rewrite Z.pow_add_r by lia. nia.
  - destruct (Z_le_gt_dec (Zdigits2 m + k) (Zdigits2 (m * 2 ^ k))) as [|Hgt]; [assumption|exfalso].
    pose proof (Zdigits2_gt (m * 2 ^ k) ltac:(nia)) as G'.
    pose proof (Zdigits2_nonneg (m * 2 ^ k)).
    assert (2 ^ Zdigits2 (m * 2 ^ k) <= 2 ^ (Zdigits2 m - 1 + k)) by (apply Z.pow_le_mono_r; lia).
    rewrite Z.pow_add_r in * by lia. nia.
Qed.

Lemma binary_round_bounded s m e B :
  Z.pos (digits2_pos m) + e <= B -> -1000 <= B <= 900 ->
  sf_bounded (Z.min e (fexp64 (Z.pos (digits2_pos m) + e))) (B + 1)
    (binary_round prec emax s m e).
Proof.
  intros HB HR. unfold binary_round.
  pose proof (shl_align_spec m e (fexp64 (Z.pos (digits2_pos m) + e))) as A.
  destruct (shl_align m e (fexp64 (Z.pos (digits2_pos m) + e))) as [mz ez].
  destruct A as [-> Hmz].
  apply binary_round_aux_bounded; try lia.
  rewrite Hmz, Zdigits2_shift by lia. cbn [Zdigits2]. lia.
Qed.

Lemma binary_normalize_bounded m e B :
  Zdigits2 m + e <= B -> -1000 <= B <= 900 ->
  sf_bounded (Z.min e (-1074)) (B + 1) (binary_normalize prec emax m e false).
Proof.
  intros HB HR. destruct m as [|p|p]; cbn [binary_normalize sf_bounded]; [exact I| |];
    (eapply sf_bounded_weaken; [| |apply binary_round_bounded with (B := B)];
     cbn [Zdigits2] in *; rewrite ?fexp64_eq; lia).
Qed.

Lemma Zdigits2_mono a b : 0 <= a <= b -> Zdigits2 a <= Zdigits2 b.
Proof.
  intros H. pose proof (Zdigits2_gt b ltac:(lia)). pose proof (Zdigits2_nonneg b).
  apply Zdigits2_bound; lia.
Qed.

Lemma Zdigits2_abs z : Zdigits2 z = Zdigits2 (Z.abs z).
Proof. destruct z; reflexivity. Qed.

Lemma SFadd_bounded x y lx Bx ly By :
  sf_bounded lx Bx x -> sf_bounded ly By y ->
  -1000 <= Z.max Bx By + 1 <= 900 ->
  sf_bounded (Z.min (Z.min lx ly) (-1074)) (Z.max Bx By + 2) (SFadd prec emax x y).
Proof.
  destruct x as [sx|sx| |sx mx ex], y as [sy|sy| |sy my ey];
    cbn [sf_bounded SFadd]; try tauto.
  - destruct sx, sy; intros; exact I.
  - intros _ ? ?; lia.
  - intros ? _ ?; lia.
  - intros [Lx Hx] [Ly Hy] HR.
    set (ez := Z.min ex ey).
    pose proof (shl_align_spec mx ex ez) as Ax.
    pose proof (shl_align_spec my ey ez) as Ay.
    destruct (shl_align mx ex ez) as [ax ex'], (shl_align my ey ez) as [ay ey'].
    destruct Ax as [-> Ax], Ay as [-> Ay]. cbn [fst].
    replace (Z.min ex ez) with ez in Ax by lia.
    replace (Z.min ey ez) with ez in Ay by lia.
    set (z := SpecFloat.cond_Zopp sx (Z.pos ax) + SpecFloat.cond_Zopp sy (Z.pos ay)).
    assert (Hz : Z.abs z <= Z.pos ax + Z.pos ay)
      by (subst z; destruct sx, sy; cbn [SpecFloat.cond_Zopp]; lia).
    assert (Dx : Zdigits2 (Z.pos ax) = Z.pos (digits2_pos mx) + (ex - ez))
      by (rewrite Ax; apply (Zdigits2_shift (Z.pos mx)); lia).
    assert (Dy : Zdigits2 (Z.pos ay) = Z.pos (digits2_pos my) + (ey - ez))
      by (rewrite Ay; apply (Zdigits2_shift (Z.pos my)); lia).
    pose proof (Zdigits2_gt (Z.pos ax) ltac:(lia)) as Gx.
    pose proof (Zdigits2_gt (Z.pos ay) ltac:(lia)) as Gy.
    assert (Dz : Zdigits2 z + ez <= Z.max Bx By + 1).
    { rewrite Zdigits2_abs.
      assert (Zdigits2 (Z.abs z) <= Z.max Bx By - ez + 1); [|lia].
      apply Zdigits2_bound; try lia.
      assert (2 ^ Zdigits2 (Z.pos ax) <= 2 ^ (Z.max Bx By - ez))
        by (apply Z.pow_le_mono_r; lia).
      assert (2 ^ Zdigits2 (Z.pos ay) <= 2 ^ (Z.max Bx By - ez))
        by (apply Z.pow_le_mono_r; lia).
      rewrite Z.pow_add_r by lia. lia. }
    eapply sf_bounded_weaken; [| |apply binary_normalize_bounded with (B := Z.max Bx By + 1)];
      lia.
Qed.

Lemma SFdiv_bounded x y lx Bx ly :
  sf_bounded lx Bx x -> sf_nonzero ly y -> -1000 <= Bx - ly <= 900 ->
  exists lo, sf_bounded lo (Bx - ly + 1) (SFdiv prec emax x y).
Proof.
  destruct x as [sx|sx| |sx mx ex], y as [sy|sy| |sy my ey];
    cbn [sf_bounded sf_nonzero SFdiv]; try tauto.
  - intros; exists 0; exact I.
  - intros [Lx Hx] Ly HR. unfold SFdiv_core_binary.
    set (e' := Z.min _ (ex - ey)).
    set (s := ex - ey - e').
    set (m' := match s with Z.pos _ => Z.shiftl (Z.pos mx) s | 0 => Z.pos mx | Z.neg _ => 0 end).
    assert (Hs : 0 <= s) by (subst s e'; lia).
    assert (Hm' : m' = Z.pos mx * 2 ^ s).
    { subst m'. destruct s as [|p|p] eqn:Es; try lia.
      apply Z.shiftl_mul_pow2; lia. }
    pose proof (Z_div_mod m' (Z.pos my) ltac:(lia)) as DM.
    destruct (Z.div_eucl m' (Z.pos my)) as [q r]. destruct DM as [DM Hr].
    assert (Q : 0 < 2 ^ s) by (apply Z.pow_pos_nonneg; lia).
    assert (Hq : 0 <= q <= m') by nia.
    exists e'. apply binary_round_aux_bounded; try lia.
    pose proof (Zdigits2_mono q m' Hq) as Dq.
    rewrite Hm', Zdigits2_shift in Dq by lia. cbn [Zdigits2] in Dq.
    subst s. lia.
Qed.

Lemma shr_fexp_pos m e l r e' :
  0 < m -> -1074 <= e -> shr_fexp prec emax m e l = (r, e') ->
  0 < shr_m r /\ -1074 <= e'.
Proof.
  intros Hm He. unfold shr_fexp, shr.
  pose proof (fexp64_eq (Zdigits2 m + e)) as F.
  destruct (fexp64 (Zdigits2 m + e) - e) as [|n|n] eqn:En;
    intros [= <- <-]; rewrite ?shr_record_of_loc_m; try lia.
  rewrite iter_shr_1_m by (rewrite shr_record_of_loc_m; lia).
  rewrite shr_record_of_loc_m.
  split; [|lia].
  pose proof (Zdigits2_le_pow m Hm) as L.
  assert (2 ^ Z.pos n <= 2 ^ (Zdigits2 m - 1)) by (apply Z.pow_le_mono_r; lia).
  apply Z.div_str_pos. split; [apply Z.pow_pos_nonneg; lia|lia].
Qed.

Lemma binary_round_aux_nonzero s m e l s' :
  0 < m -> -1074 <= e -> binary_round_aux prec emax s m e l <> S754_zero s'.
Proof.
  intros Hm He. unfold binary_round_aux.
  destruct (shr_fexp prec emax m e l) as [r1 e1] eqn:E1.
  destruct (shr_fexp_pos _ _ _ _ _ Hm He E1) as [M1 L1].
  pose proof (round_nearest_even_bound (shr_m r1) (loc_of_shr_record r1)) as RB.
  set (m2 := round_nearest_even (shr_m r1) (loc_of_shr_record r1)) in *.
  destruct (shr_fexp prec emax m2 e1 loc_Exact) as [r3 e3] eqn:E3.
  destruct (shr_fexp_pos m2 e1 loc_Exact _ _ ltac:(lia) L1 E3) as [M3 L3].
  destruct (shr_m r3) as [|p|p]; try lia.
  destruct (e3 <=? emax - prec); discriminate.
Qed.

(** *** The primitive operations *)

Lemma mul_bounded x y lx Bx ly By :
  sf_bounded lx Bx (Prim2SF x) -> sf_bounded ly By (Prim2SF y) ->
  -1000 <= Bx + By <= 900 ->
  sf_bounded (lx + ly) (Bx + By + 1) (Prim2SF (x * y)%float).
Proof. rewrite mul_spec. apply SFmul_bounded. Qed.

Lemma add_bounded x y lx Bx ly By :
  sf_bounded lx Bx (Prim2SF x) -> sf_bounded ly By (Prim2SF y) ->
  -1000 <= Z.max Bx By + 1 <= 900 ->
  sf_bounded (Z.min (Z.min lx ly) (-1074)) (Z.max Bx By + 2) (Prim2SF (x + y)%float).
Proof. rewrite add_spec. apply SFadd_bounded. Qed.

Lemma div_bounded x y lx Bx ly :
  sf_bounded lx Bx (Prim2SF x) -> sf_nonzero ly (Prim2SF y) ->
  -1000 <= Bx - ly <= 900 ->
  exists lo, sf_bounded lo (Bx - ly + 1) (Prim2SF (x / y)%float).
Proof. rewrite div_spec. apply SFdiv_bounded. Qed.

Lemma of_Z_bounded n : sf_bounded (-1074) 64 (Prim2SF (of_Z n)).
Proof.
  unfold of_Z. rewrite of_uint63_spec.
  pose proof (Uint63.to_Z_bounded (Uint63.of_Z n)) as Hb.
  eapply sf_bounded_weaken;
    [| |apply binary_normalize_bounded with (B := 63)]; try lia.
  assert (Zdigits2 (Uint63.to_Z (Uint63.of_Z n)) <= 63); [|lia].
  apply Zdigits2_bound; try lia. exact (proj2 Hb).
Qed.

Lemma of_Z_nonzero n : 1 <= n < 2 ^ 63 -> sf_nonzero (-52) (Prim2SF (of_Z n)).
Proof.
  intros Hn. unfold of_Z. rewrite of_uint63_spec, Uint63.of_Z_spec.
  rewrite Z.mod_small by (change Uint63.wB with (2 ^ 63); lia).
  destruct n as [|p|p]; try lia. cbn [binary_normalize].
  assert (D : Z.pos (digits2_pos p) <= 63).
  { apply (Zdigits2_bound (Z.pos p)); lia. }
  pose proof (binary_round_bounded false p 0 63 ltac:(lia) ltac:(lia)) as Hb.
  assert (Hz : forall s', binary_round prec emax false p 0 <> S754_zero s').
  { intros s'. unfold binary_round.
    pose proof (shl_align_spec p 0 (fexp64 (Z.pos (digits2_pos p) + 0))) as A.
    destruct (shl_align p 0 (fexp64 (Z.pos (digits2_pos p) + 0))) as [mz ez].
    destruct A as [-> _]. apply binary_round_aux_nonzero; [lia|].
    rewrite fexp64_eq. lia. }
  destruct (binary_round prec emax false p 0) as [s'| | |s' m e];
    cbn [sf_bounded sf_nonzero] in *; try tauto.
  - exact (Hz s' eq_refl).
  - rewrite fexp64_eq in Hb. lia.
Qed.

Lemma Prim2SF_c0 : Prim2SF c0 = S754_zero false.
Proof. reflexivity. Qed.

Lemma Prim2SF_c100 : Prim2SF c100 = S754_finite false 7036874417766400 (-46).
Proof. reflexivity. Qed.

Lemma Prim2SF_c0_3 : Prim2SF c0_3 = S754_finite false 5404319552844595 (-54).
Proof. reflexivity. Qed.

Lemma Prim2SF_c0_4 : Prim2SF c0_4 = S754_finite false 7205759403792794 (-54).
Proof. reflexivity. Qed.

Lemma c100_bounded : sf_bounded (-46) 7 (Prim2SF c100).
Proof. rewrite Prim2SF_c100. cbn. lia. Qed.

Lemma c0_3_bounded : sf_bounded (-54) (-1) (Prim2SF c0_3).
Proof. rewrite Prim2SF_c0_3. cbn. lia. Qed.

Lemma c0_4_bounded : sf_bounded (-54) (-1) (Prim2SF c0_4).
Proof. rewrite Prim2SF_c0_4. cbn. lia. Qed.

(** [round] and [int] return on every bounded float. *)
Lemma py_round_bounded x lo B :
  sf_bounded lo B (Prim2SF x) -> exists z, py_round x = Ok z.
Proof.
  unfold py_round. destruct (Prim2SF x); cbn [sf_bounded]; try tauto; eauto.
Qed.

Lemma py_int_bounded x lo B :
  sf_bounded lo B (Prim2SF x) -> exists z, py_int x = Ok z.
Proof.
  unfold py_int. destruct (Prim2SF x); cbn [sf_bounded]; try tauto; eauto.
Qed.

End FloatFacts.

(** * Facts about scoring.py *)

Module ScoringFacts.
Import Float FloatFacts Scoring.

(** A float strictly between [0] and [100] is finite, below [2^7]. *)
Lemma between_bounded x :
  PrimFloat.ltb c0 x = true -> PrimFloat.ltb x c100 = true ->
  sf_bounded (-1074) 7 (Prim2SF x)
  /\ PrimFloat.leb c0 x = true /\ PrimFloat.leb x c100 = true.
Proof.
  rewrite !ltb_spec, !leb_spec, Prim2SF_c0, Prim2SF_c100.
  pose proof (Prim2SF_valid x) as V.
  destruct (Prim2SF x) as [s|s| |s m e]; try discriminate.
  - destruct s; discriminate.
  - destruct s; [discriminate|]. intros _.
    unfold SFltb, SFleb, SFcompare.
    destruct (e ?= -46) eqn:C; try discriminate.
    + apply Z.compare_eq in C.
      destruct (Pos.compare_cont Eq m 7036874417766400); try discriminate.
      intros _. repeat split; try reflexivity.
      * cbn [valid_binary] in V. unfold bounded, canonical_mantissa in V.
        apply andb_prop in V. destruct V as [V _].
        apply Z.eqb_eq in V. rewrite fexp64_eq in V. lia.
      * cbn [valid_binary] in V. unfold bounded, canonical_mantissa in V.
        apply andb_prop in V. destruct V as [V _].
        apply Z.eqb_eq in V. rewrite fexp64_eq in V. lia.
    + rewrite Z.compare_lt_iff in C.
      intros _. repeat split; try reflexivity.
      * cbn [valid_binary] in V. unfold bounded, canonical_mantissa in V.
        apply andb_prop in V. destruct V as [V _].
        apply Z.eqb_eq in V. rewrite fexp64_eq in V. lia.
      * cbn [valid_binary] in V. unfold bounded, canonical_mantissa in V.
        apply andb_prop in V. destruct V as [V _].
        apply Z.eqb_eq in V. rewrite fexp64_eq in V. lia.
Qed.

(** The three outcomes of the clamp [max(0, min(100, score))]. *)
Lemma calculate_readability_cases self text :
  let r := calculate_readability self text in
  r = c0 \/ r = c100 \/
  (r = flesch_reading_ease self text
   /\ PrimFloat.ltb c0 r = true /\ PrimFloat.ltb r c100 = true).
Proof.
  unfold calculate_readability, py_max, py_min.
  destruct (PrimFloat.ltb (flesch_reading_ease self text) c100) eqn:E1.
  - destruct (PrimFloat.ltb c0 (flesch_reading_ease self text)) eqn:E2; auto.
  - change (PrimFloat.ltb c0 c100) with true. cbv iota. auto.
Qed.

Lemma calculate_readability_bounded self text :
  sf_bounded (-1074) 7 (Prim2SF (calculate_readability self text)).
Proof.
  destruct (calculate_readability_cases self text) as [-> | [-> | (_ & H0 & H1)]].
  - rewrite Prim2SF_c0. exact I.
  - eapply sf_bounded_weaken; [| |apply c100_bounded]; lia.
  - apply (between_bounded _ H0 H1).
Qed.

Lemma final_score_bounded s r g :
  sf_bounded (-1074) 7 (Prim2SF r) ->
  sf_bounded (-1128) 68 (Prim2SF (final_score s r g)).
Proof.
  intros Hr. unfold final_score.
  assert (Hs : sf_bounded (-1128) 64 (Prim2SF (of_Z s * c0_4)%float)).
  { eapply sf_bounded_weaken;
      [| |apply (mul_bounded _ _ _ _ _ _ (of_Z_bounded s) c0_4_bounded)]; lia. }
  assert (Hrd : sf_bounded (-1128) 7 (Prim2SF (r * c0_3)%float)).
  { eapply sf_bounded_weaken;
      [| |apply (mul_bounded _ _ _ _ _ _ Hr c0_3_bounded)]; lia. }
  assert (Hg : sf_bounded (-1128) 64 (Prim2SF (of_Z g * c0_3)%float)).
  { eapply sf_bounded_weaken;
      [| |apply (mul_bounded _ _ _ _ _ _ (of_Z_bounded g) c0_3_bounded)]; lia. }
  assert (H1 : sf_bounded (-1128) 66
                 (Prim2SF (of_Z s * c0_4 + r * c0_3)%float)).
  { eapply sf_bounded_weaken; [| |apply (add_bounded _ _ _ _ _ _ Hs Hrd)]; lia. }
  eapply sf_bounded_weaken; [| |apply (add_bounded _ _ _ _ _ _ H1 Hg)]; lia.
Qed.

(** *** Skill matching *)

Lemma elem_of_foldl_add_token (doc : list string) : forall (acc : gset string) x,
  x ∈ foldl add_token acc doc <-> x ∈ acc \/ (x ∈ doc /\ x ∈ TARGET_SKILLS).
Proof.
  induction doc as [|tok doc IH]; intros acc x; cbn [foldl].
  - rewrite elem_of_nil. tauto.
  - rewrite IH, elem_of_cons. unfold add_token.
    generalize TARGET_SKILLS. intros vocab.
    case_bool_decide as Hin.
    + rewrite elem_of_union, elem_of_singleton.
      split; [intros [[->|?]|?]; auto; tauto|intros [?|[[->|?] ?]]; auto].
    + split; [tauto|intros [?|[[->|?] ?]]; [auto|contradiction|auto]].
Qed.

Lemma elem_of_foldl_add_phrase lowered (vocab : list string) :
  forall (acc : gset string) x,
  x ∈ foldl (add_phrase lowered) acc vocab <->
  x ∈ acc \/ (x ∈ vocab /\ Str.contains " " x = true
              /\ Str.contains x lowered = true).
Proof.
  induction vocab as [|skill vocab IH]; intros acc x; cbn [foldl].
  - rewrite elem_of_nil. tauto.
  - rewrite IH, elem_of_cons. unfold add_phrase.
    destruct (Str.contains " " skill && Str.contains skill lowered)%bool eqn:E.
    + apply andb_prop in E. destruct E as [E1 E2].
      rewrite elem_of_union, elem_of_singleton.
      split; [intros [[->|?]|?]; auto; tauto|intros [?|[[->|?] ?]]; auto].
    + split; [tauto|intros [?|[[->|?] [E1 E2]]]; [auto| |auto]].
      rewrite E1, E2 in E. discriminate.
Qed.

(** A skill is reported iff it is a vocabulary entry that is a token of
    the lower-cased text, or a vocabulary entry with a space that occurs
    in the lower-cased text. *)
Lemma elem_of_analyze_skills self text x :
  x ∈ analyze_skills self text <->
  x ∈ TARGET_SKILLS
  /\ (x ∈ nlp self (Str.lower text)
      \/ (Str.contains " " x = true /\ Str.contains x (Str.lower text) = true)).
Proof.
  unfold analyze_skills, found_skills.
  rewrite elem_of_elements, elem_of_foldl_add_phrase, elem_of_foldl_add_token.
  rewrite elem_of_empty. tauto.
Qed.

Lemma NoDup_analyze_skills self text : NoDup (analyze_skills self text).
Proof. apply NoDup_elements. Qed.

Lemma check_grammar_returns self text ms :
  tool_check self text = Ok ms ->
  check_grammar self text = Ok (Z.max 0 (100 - Z.of_nat (length ms) * 5), ms).
Proof. intros H. unfold check_grammar. rewrite H. reflexivity. Qed.

Lemma check_grammar_raises self text e :
  tool_check self text = Raise e -> check_grammar self text = Raise e.
Proof. intros H. unfold check_grammar. rewrite H. reflexivity. Qed.

(** When the grammar engine returns, [generate_score] returns a report,
    whose fields are as follows. *)
Lemma generate_score_returns self text ms :
  tool_check self text = Ok ms ->
  exists r,
    generate_score self text = Ok r
    /\ py_round (final_score (skills_score r) (calculate_readability self text)
                            (grammar_score r)) = Ok (overall_score r)
    /\ py_round (calculate_readability self text) = Ok (readability_score r)
    /\ skills_score r = Z.min 100 (Z.of_nat (length (analyze_skills self text)) * 10)
    /\ grammar_score r = Z.max 0 (100 - Z.of_nat (length ms) * 5)
    /\ matched_skills r = analyze_skills self text
    /\ missing_skills r =
         elements (list_to_set TARGET_SKILLS ∖ list_to_set (analyze_skills self text)
                   : gset string)
    /\ grammar (feedback r) =
         (if 80 <? grammar_score r then "Excellent grammar!"
          else "Found " +:+ Str.of_nat (length ms) +:+ " grammar issues.")
    /\ grammar_errors r =
         map (fun m => {| error_message := message m; error_context := context m |})
             (take 10 ms).
Proof.
  intros H. unfold generate_score.
  rewrite (check_grammar_returns _ _ _ H), bind_Ok.
  cbv beta iota zeta.
  pose proof (calculate_readability_bounded self text) as Hr.
  destruct (py_round_bounded _ _ _
              (final_score_bounded
                 (Z.min 100 (Z.of_nat (length (analyze_skills self text)) * 10)) _
                 (Z.max 0 (100 - Z.of_nat (length ms) * 5)) Hr)) as [overall Ho].
  destruct (py_round_bounded _ _ _ Hr) as [rounded Hrd].
  rewrite Ho, bind_Ok, Hrd, bind_Ok.
  eexists. split; [reflexivity|].
  cbn [overall_score skills_score readability_score grammar_score matched_skills
       missing_skills feedback grammar grammar_errors].
  unfold round_int.
  split; [exact Ho|].
  repeat (split; [reflexivity|]). reflexivity.
Qed.

Lemma generate_score_raises self text e :
  tool_check self text = Raise e -> generate_score self text = Raise e.
Proof.
  intros H. unfold generate_score.
  rewrite (check_grammar_raises _ _ _ H). apply bind_Raise.
Qed.

(** *** The claims on scoring.py *)

(** C1 fails on the code as worded: the overall score is not the formula
    of the three sub-scores of the report.  With a raw readability of
    51.6, two matched skills and no grammar match, the report holds the
    sub-scores 20, 52 and 100 and the overall score 53, while
    [round(0.4 * 20 + 0.3 * 52 + 0.3 * 100)] is 54: the overall score was
    made from 51.6, which the report does not hold. *)
Lemma overall_score_not_from_report :
  exists r,
    generate_score (Examples.quiet_scorer 0x1.9cccccccccccdp+5)
                   Examples.skills_text = Ok r
    /\ skills_score r = 20
    /\ readability_score r = 52
    /\ grammar_score r = 100
    /\ overall_score r = 53
    /\ py_round (Float.of_Z (skills_score r) * c0_4
                 + Float.of_Z (readability_score r) * c0_3
                 + Float.of_Z (grammar_score r) * c0_3)%float = Ok 54
    /\ py_round (Float.of_Z (skills_score r) * c0_4
                 + Float.of_Z (readability_score r) * c0_3
                 + Float.of_Z (grammar_score r) * c0_3)%float
       <> Ok (overall_score r).
Proof.
  eexists. split; [vm_compute; reflexivity|].
  cbn [skills_score readability_score grammar_score overall_score].
  repeat (split; [vm_compute; reflexivity|]).
  vm_compute. discriminate.
Qed.

(** C1, amended. Whenever the grammar engine returns, [generate_score]
    returns a report whose [overall_score] is [round(0.4 * skills_score
    + 0.3 * readability + 0.3 * grammar_score)], computed in binary64
    from the report's [skills_score] and [grammar_score] and from the
    unrounded value of [calculate_readability] in the same invocation;
    the report's [readability_score] is the rounding of that value. *)
Theorem overall_score_formula self text ms :
  tool_check self text = Ok ms ->
  exists r,
    generate_score self text = Ok r
    /\ py_round (Float.of_Z (skills_score r) * c0_4
                 + calculate_readability self text * c0_3
                 + Float.of_Z (grammar_score r) * c0_3)%float
       = Ok (overall_score r)
    /\ skills_score r = Z.min 100 (Z.of_nat (length (analyze_skills self text)) * 10)
    /\ check_grammar self text = Ok (grammar_score r, ms)
    /\ py_round (calculate_readability self text) = Ok (readability_score r).
Proof.
  intros H.
  destruct (generate_score_returns self text ms H)
    as (r & Hgen & Hov & Hrd & Hsk & Hgr & _).
  exists r. repeat split; try assumption.
  rewrite Hgr. apply check_grammar_returns, H.
Qed.

Lemma overall_score_formula_witness :
  exists r,
    generate_score (Examples.noisy_scorer 12) Examples.skills_text = Ok r
    /\ overall_score r = 35.
Proof.
  destruct (overall_score_formula (Examples.noisy_scorer 12) Examples.skills_text
              _ eq_refl) as (r & Hgen & _).
  exists r. split; [exact Hgen|].
  vm_compute in Hgen. injection Hgen as <-. reflexivity.
Defined.

(** C2. [check_grammar] scores [max(0, 100 - 5 * N)] for the full number
    [N] of matches; the report keeps that score, lists the first ten
    matches only, and the grammar feedback of a score of 80 or less names
    the full count [N]. *)
Theorem grammar_score_counts_all_errors self text ms :
  tool_check self text = Ok ms ->
  check_grammar self text = Ok (Z.max 0 (100 - 5 * Z.of_nat (length ms)), ms)
  /\ exists r,
       generate_score self text = Ok r
       /\ grammar_score r = Z.max 0 (100 - 5 * Z.of_nat (length ms))
       /\ grammar_errors r =
            map (fun m => {| error_message := message m;
                             error_context := context m |}) (take 10 ms)
       /\ (length (grammar_errors r) <= 10)%nat
       /\ (grammar_score r <= 80 ->
            grammar (feedback r) =
            "Found " +:+ Str.of_nat (length ms) +:+ " grammar issues.").
Proof.
  intros H. split.
  - rewrite (check_grammar_returns _ _ _ H). do 2 f_equal. lia.
  - destruct (generate_score_returns self text ms H)
      as (r & Hgen & _ & _ & _ & Hgr & _ & _ & Hfb & Herr).
    exists r. split; [exact Hgen|]. split; [lia|]. split; [exact Herr|]. split.
    + rewrite Herr, length_map, length_take. lia.
    + intros Hle. rewrite Hfb.
      destruct (80 <? grammar_score r) eqn:E; [|reflexivity].
      apply Z.ltb_lt in E. lia.
Qed.

Lemma grammar_score_counts_all_errors_witness :
  exists r,
    generate_score (Examples.noisy_scorer 12) Examples.skills_text = Ok r
    /\ grammar_score r = 40
    /\ length (grammar_errors r) = 10%nat
    /\ grammar (feedback r) = "Found 12 grammar issues.".
Proof.
  destruct (grammar_score_counts_all_errors (Examples.noisy_scorer 12)
              Examples.skills_text _ eq_refl) as (_ & r & Hgen & Hgr & Herr & _ & Hfb).
  exists r. split; [exact Hgen|]. split; [exact Hgr|]. split.
  - rewrite Herr. reflexivity.
  - apply Hfb. rewrite Hgr. vm_compute. discriminate.
Defined.

(** C5. The report's [skills_score] is [min(100, 10 * |matched_skills|)],
    a multiple of 10. *)
Theorem skills_score_formula self text ms :
  tool_check self text = Ok ms ->
  exists r,
    generate_score self text = Ok r
    /\ skills_score r = Z.min 100 (10 * Z.of_nat (length (matched_skills r)))
    /\ 0 <= skills_score r <= 100
    /\ skills_score r mod 10 = 0.
Proof.
  intros H.
  destruct (generate_score_returns self text ms H)
    as (r & Hgen & _ & _ & Hsk & _ & Hm & _).
  exists r. split; [exact Hgen|]. rewrite Hm, Hsk.
  set (n := Z.of_nat (length (analyze_skills self text))).
  assert (Hn : 0 <= n) by (subst n; lia).
  split; [lia|]. split; [lia|].
  destruct (Z_le_gt_dec 100 (n * 10)).
  - rewrite Z.min_l by lia. reflexivity.
  - rewrite Z.min_r by lia. apply Z.mod_mul. lia.
Qed.

Lemma skills_score_formula_witness :
  exists r,
    generate_score (Examples.quiet_scorer 50) Examples.skills_text = Ok r
    /\ skills_score r = 20.
Proof.
  destruct (skills_score_formula (Examples.quiet_scorer 50) Examples.skills_text
              _ eq_refl) as (r & Hgen & _).
  exists r. split; [exact Hgen|].
  vm_compute in Hgen. injection Hgen as <-. reflexivity.
Defined.

(** C6. In the report, no skill is both matched and missing, and a skill
    is matched or missing exactly when it is in [TARGET_SKILLS]. *)
Theorem matched_missing_partition self text ms :
  tool_check self text = Ok ms ->
  exists r,
    generate_score self text = Ok r
    /\ (forall s, s ∈ matched_skills r -> s ∈ missing_skills r -> False)
    /\ (forall s, s ∈ matched_skills r \/ s ∈ missing_skills r
                  <-> s ∈ TARGET_SKILLS).
Proof.
  intros H.
  destruct (generate_score_returns self text ms H)
    as (r & Hgen & _ & _ & _ & _ & Hm & Hmiss & _).
  exists r. split; [exact Hgen|]. rewrite Hm, Hmiss.
  assert (Hiff : forall s,
    s ∈ elements (list_to_set TARGET_SKILLS ∖ list_to_set (analyze_skills self text)
                  : gset string)
    <-> s ∈ TARGET_SKILLS /\ ~ s ∈ analyze_skills self text).
  { intros s.
    rewrite elem_of_elements, elem_of_difference, !elem_of_list_to_set. tauto. }
  split.
  - intros s Hin Hmis. apply Hiff in Hmis. tauto.
  - intros s. rewrite Hiff. split.
    + intros [Hin|[Hin _]]; [|exact Hin].
      apply elem_of_analyze_skills in Hin. tauto.
    + intros Hin.
      destruct (decide (s ∈ analyze_skills self text)); [left|right]; tauto.
Qed.

Lemma matched_missing_partition_witness :
  exists r,
    generate_score (Examples.quiet_scorer 50) Examples.skills_text = Ok r
    /\ ("python" ∈ matched_skills r \/ "python" ∈ missing_skills r).
Proof.
  destruct (matched_missing_partition (Examples.quiet_scorer 50)
              Examples.skills_text _ eq_refl) as (r & Hgen & _ & Hall).
  exists r. split; [exact Hgen|].
  apply Hall. apply (bool_decide_unpack _). vm_compute. exact I.
Defined.

(** C10. The grammar score is a multiple of 5 between 0 and 100. *)
Theorem grammar_score_multiple_of_5 self text ms :
  tool_check self text = Ok ms ->
  exists score,
    check_grammar self text = Ok (score, ms)
    /\ 0 <= score <= 100
    /\ score mod 5 = 0.
Proof.
  intros H. rewrite (check_grammar_returns _ _ _ H).
  eexists. split; [reflexivity|].
  set (n := Z.of_nat (length ms)).
  assert (Hn : 0 <= n) by (subst n; lia).
  split; [lia|].
  destruct (Z_le_gt_dec (100 - n * 5) 0).
  - rewrite Z.max_l by lia. reflexivity.
  - rewrite Z.max_r by lia.
    replace (100 - n * 5) with ((20 - n) * 5) by lia. apply Z.mod_mul. lia.
Qed.

Lemma grammar_score_multiple_of_5_witness :
  exists score,
    check_grammar (Examples.noisy_scorer 3) "Teh resume" = Ok (score, replicate 3 (Examples.mk_match "Possible spelling mistake"))
    /\ 0 <= score <= 100 /\ score mod 5 = 0.
Proof.
  exact (grammar_score_multiple_of_5 (Examples.noisy_scorer 3) "Teh resume" _ eq_refl).
Defined.

(** C7 fails on the code as worded: nothing in [calculate_readability]
    looks at the text, so there is no convention for the empty or the
    whitespace-only text.  With an engine that gives 50 for them, the
    result is 50, which is neither boundary. *)
Lemma readability_empty_text_not_boundary :
  calculate_readability (Examples.quiet_scorer 50) "" = 50%float
  /\ calculate_readability (Examples.quiet_scorer 50) "   " = 50%float
  /\ calculate_readability (Examples.quiet_scorer 50) "" <> c0
  /\ calculate_readability (Examples.quiet_scorer 50) "" <> c100.
Proof.
  split; [reflexivity|]. split; [reflexivity|]. split.
  - intros E. apply (f_equal Prim2SF) in E. vm_compute in E. discriminate E.
  - intros E. apply (f_equal Prim2SF) in E. vm_compute in E. discriminate E.
Qed.

(** C7, amended. For every text, and whatever float [raw] textstat returns
    for it (a NaN or an infinity included), [calculate_readability]
    returns [max(0, min(100, raw))]: [raw] itself when it is strictly
    between 0 and 100, 100 when it is not below 100 (a NaN included), and
    0 otherwise; this is always a finite value between 0 and 100.  The
    text counts only through [raw]: two texts with the same raw score
    have the same result, the empty text as any other. *)
Theorem calculate_readability_clamped self text :
  let raw := flesch_reading_ease self text in
  let r := calculate_readability self text in
  (PrimFloat.ltb c0 raw = true -> PrimFloat.ltb raw c100 = true -> r = raw)
  /\ (PrimFloat.ltb raw c100 = false -> r = c100)
  /\ (PrimFloat.ltb raw c100 = true -> PrimFloat.ltb c0 raw = false -> r = c0)
  /\ PrimFloat.leb c0 r = true
  /\ PrimFloat.leb r c100 = true
  /\ is_finite r = true
  /\ (forall text',
        flesch_reading_ease self text' = raw ->
        calculate_readability self text' = r).
Proof.
  assert (Hrange :
    PrimFloat.leb c0 (calculate_readability self text) = true
    /\ PrimFloat.leb (calculate_readability self text) c100 = true).
  { destruct (calculate_readability_cases self text) as [-> | [-> | (_ & H0 & H1)]].
    - split; reflexivity.
    - split; reflexivity.
    - destruct (between_bounded _ H0 H1) as (_ & ? & ?). auto. }
  cbv zeta.
  split; [|split; [|split; [|split; [|split; [|split]]]]].
  - intros E0 E1. unfold calculate_readability, py_min, py_max.
    rewrite E1, E0. reflexivity.
  - intros E. unfold calculate_readability, py_min. rewrite E. reflexivity.
  - intros E1 E2. unfold calculate_readability, py_min, py_max.
    rewrite E1, E2. reflexivity.
  - apply Hrange.
  - apply Hrange.
  - pose proof (calculate_readability_bounded self text) as Hb.
    unfold is_finite. destruct (Prim2SF (calculate_readability self text));
      cbn [sf_bounded] in Hb; tauto.
  - intros text' E. unfold calculate_readability. rewrite E. reflexivity.
Qed.

Lemma calculate_readability_clamped_witness :
  calculate_readability (Examples.quiet_scorer 0x1.9cccccccccccdp+5) ""
  = 0x1.9cccccccccccdp+5%float
  /\ calculate_readability (Examples.quiet_scorer 0x1.9dap+7) "" = c100
  /\ calculate_readability (Examples.quiet_scorer (-0x1.4p+3)) "" = c0.
Proof.
  split; [|split].
  - apply (proj1 (calculate_readability_clamped
                    (Examples.quiet_scorer 0x1.9cccccccccccdp+5) ""));
      reflexivity.
  - apply (proj1 (proj2 (calculate_readability_clamped
                           (Examples.quiet_scorer 0x1.9dap+7) "")));
      reflexivity.
  - apply (proj1 (proj2 (proj2 (calculate_readability_clamped
                                  (Examples.quiet_scorer (-0x1.4p+3)) ""))));
      reflexivity.
Defined.

(** C8 fails on the code: with the grammar engine down, [generate_score]
    raises; no report with grammar score 100 and an empty error list is
    returned. *)
Lemma engine_down_not_degraded :
  generate_score Examples.down_scorer "Python developer"
    = Raise Examples.EngineUnavailable
  /\ ~ (exists r,
         generate_score Examples.down_scorer "Python developer" = Ok r
         /\ grammar_score r = 100 /\ grammar_errors r = []).
Proof.
  assert (H : generate_score Examples.down_scorer "Python developer"
              = Raise Examples.EngineUnavailable)
    by (apply generate_score_raises; reflexivity).
  split; [exact H|]. intros (r & Hr & _). rewrite H in Hr. discriminate.
Qed.

(** C8, amended. [generate_score] has no handler around the grammar
    check: an exception of the engine is the outcome of the whole call,
    and a report is returned exactly when the engine returns. *)
Theorem engine_failure_propagates self text :
  (forall e, tool_check self text = Raise e ->
             generate_score self text = Raise e)
  /\ (forall ms, tool_check self text = Ok ms ->
                 exists r, generate_score self text = Ok r)
  /\ (forall r, generate_score self text = Ok r ->
                exists ms, tool_check self text = Ok ms).
Proof.
  split; [|split].
  - intros e H. apply generate_score_raises, H.
  - intros ms H.
    destruct (generate_score_returns self text ms H) as (r & Hgen & _). eauto.
  - intros r Hr. destruct (tool_check self text) as [ms|e] eqn:E; [eauto|].
    rewrite (generate_score_raises _ _ _ E) in Hr. discriminate.
Qed.

Lemma engine_failure_propagates_witness :
  generate_score Examples.down_scorer "Python developer"
    = Raise Examples.EngineUnavailable.
Proof.
  exact (proj1 (engine_failure_propagates Examples.down_scorer "Python developer")
           Examples.EngineUnavailable eq_refl).
Defined.

(** In the vocabulary, the entries with a space are the entries with
    whitespace. *)
Lemma vocabulary_whitespace skill :
  skill ∈ TARGET_SKILLS -> Str.has_whitespace skill = Str.contains " " skill.
Proof.
  intros Hin. apply list_elem_of_In in Hin.
  assert (H : forallb (fun s => Bool.eqb (Str.has_whitespace s) (Str.contains " " s))
                TARGET_SKILLS = true) by (vm_compute; reflexivity).
  rewrite forallb_forall in H. apply Bool.eqb_prop, H, Hin.
Qed.

(** C4. For a vocabulary entry without whitespace, being matched is being
    a token of the lower-cased text; for an entry with whitespace, when
    the tokens are substrings of the text they come from, it is occurring
    in the lower-cased text.  On the example text, whose tokens are
    [Examples.skills_tokens], the matched set is python and machine
    learning and the skills score is 20. *)
Theorem skill_matching_two_tier self :
  (forall text skill, skill ∈ TARGET_SKILLS ->
     (Str.has_whitespace skill = false ->
        (skill ∈ analyze_skills self text <-> skill ∈ nlp self (Str.lower text)))
     /\ (Str.has_whitespace skill = true ->
         forallb (fun tok => Str.contains tok (Str.lower text))
                 (nlp self (Str.lower text)) = true ->
         (skill ∈ analyze_skills self text
          <-> Str.contains skill (Str.lower text) = true)))
  /\ (nlp self (Str.lower Examples.skills_text) = Examples.skills_tokens ->
      list_to_set (analyze_skills self Examples.skills_text)
        = ({[ "python"; "machine learning" ]} : gset string)
      /\ forall ms, tool_check self Examples.skills_text = Ok ms ->
           exists r, generate_score self Examples.skills_text = Ok r
                     /\ skills_score r = 20).
Proof.
  split.
  - intros text skill Hin. rewrite (vocabulary_whitespace _ Hin).
    rewrite elem_of_analyze_skills. split.
    + intros Hsp. rewrite Hsp. split; [|tauto].
      intros [_ [?|[? _]]]; [assumption|discriminate].
    + intros Hsp Htok. rewrite Hsp. split; [|tauto].
      intros [_ [Hdoc|[_ ?]]]; [|assumption].
      rewrite forallb_forall in Htok. apply Htok, list_elem_of_In, Hdoc.
  - intros Htok.
    assert (Hset : found_skills self Examples.skills_text
                   = ({[ "python"; "machine learning" ]} : gset string)).
    { unfold found_skills. rewrite Htok. vm_compute. reflexivity. }
    split.
    + unfold analyze_skills. rewrite list_to_set_elements_L. exact Hset.
    + intros ms H.
      destruct (generate_score_returns self _ ms H) as (r & Hgen & _ & _ & Hsk & _).
      exists r. split; [exact Hgen|]. rewrite Hsk.
      unfold analyze_skills. rewrite Hset. vm_compute. reflexivity.
Qed.

Lemma skill_matching_two_tier_witness :
  ("machine learning" ∈ analyze_skills (Examples.quiet_scorer 50) Examples.skills_text
   <-> Str.contains "machine learning" (Str.lower Examples.skills_text) = true)
  /\ ("java" ∈ analyze_skills (Examples.quiet_scorer 50) Examples.skills_text
      <-> "java" ∈ Examples.simple_nlp (Str.lower Examples.skills_text))
  /\ list_to_set (analyze_skills (Examples.quiet_scorer 50) Examples.skills_text)
       = ({[ "python"; "machine learning" ]} : gset string)
  /\ exists r, generate_score (Examples.quiet_scorer 50) Examples.skills_text = Ok r
               /\ skills_score r = 20.
Proof.
  pose proof (skill_matching_two_tier (Examples.quiet_scorer 50)) as [Hgen Hex].
  split; [|split].
  - apply (Hgen Examples.skills_text "machine learning").
    + apply (bool_decide_unpack _). vm_compute. exact I.
    + vm_compute. reflexivity.
    + vm_compute. reflexivity.
  - apply (Hgen Examples.skills_text "java").
    + apply (bool_decide_unpack _). vm_compute. exact I.
    + vm_compute. reflexivity.
  - destruct (Hex ltac:(vm_compute; reflexivity)) as [Hset Hscore].
    split; [exact Hset|]. exact (Hscore [] eq_refl).
Defined.

End ScoringFacts.

(** * Further facts about scoring.py *)

Module ScoringMore.
Import Float FloatFacts Scoring ScoringFacts.

(** The report, field by field, once the two roundings are known. *)
Lemma generate_score_report self text ms overall rounded :
  tool_check self text = Ok ms ->
  py_round (final_score (Z.min 100 (Z.of_nat (length (analyze_skills self text)) * 10))
              (calculate_readability self text)
              (Z.max 0 (100 - Z.of_nat (length ms) * 5))) = Ok overall ->
  py_round (calculate_readability self text) = Ok rounded ->
  generate_score self text = Ok {|
    overall_score := overall;
    skills_score := Z.min 100 (Z.of_nat (length (analyze_skills self text)) * 10);
    readability_score := rounded;
    grammar_score := Z.max 0 (100 - Z.of_nat (length ms) * 5);
    matched_skills := analyze_skills self text;
    missing_skills :=
      elements (list_to_set TARGET_SKILLS ∖ list_to_set (analyze_skills self text)
                : gset string);
    feedback := {|
      skills :=
        if 50 <? Z.min 100 (Z.of_nat (length (analyze_skills self text)) * 10)
        then "Great job on listing relevant skills!"
        else "Consider adding more industry-standard skills.";
      readability :=
        if PrimFloat.ltb c60 (calculate_readability self text)
        then "Your resume is easy to read."
        else "Try using shorter sentences and simpler words.";
      grammar :=
        if 80 <? Z.max 0 (100 - Z.of_nat (length ms) * 5)
        then "Excellent grammar!"
        else "Found " +:+ Str.of_nat (length ms) +:+ " grammar issues."
    |};
    grammar_errors :=
      map (fun m => {| error_message := message m; error_context := context m |})
          (take 10 ms)
  |}.
Proof.
  intros H Ho Hrd. unfold generate_score.
  rewrite (check_grammar_returns _ _ _ H), bind_Ok.
  cbv beta iota zeta.
  rewrite Ho, bind_Ok, Hrd, bind_Ok. reflexivity.
Qed.

(** X1. The matched skills are vocabulary entries, each listed once, so at
    most 33 of them: the skills score reaches 100 from ten matched skills
    on. *)
Theorem analyze_skills_vocabulary self text :
  NoDup (analyze_skills self text)
  /\ (forall s, s ∈ analyze_skills self text -> s ∈ TARGET_SKILLS)
  /\ (length (analyze_skills self text) <= 33)%nat.
Proof.
  assert (Hsub : forall s, s ∈ analyze_skills self text -> s ∈ TARGET_SKILLS).
  { intros s Hs. apply elem_of_analyze_skills in Hs. tauto. }
  split; [apply NoDup_analyze_skills|]. split; [exact Hsub|].
  assert (Hnd : NoDup TARGET_SKILLS).
  { apply (bool_decide_unpack _). vm_compute. exact I. }
  change 33%nat with (length TARGET_SKILLS).
  apply submseteq_length, NoDup_submseteq.
  - apply NoDup_analyze_skills.
  - exact Hsub.
Qed.

Lemma lower_ascii_idempotent c : Str.lower_ascii (Str.lower_ascii c) = Str.lower_ascii c.
Proof. destruct c as [[] [] [] [] [] [] [] []]; reflexivity. Qed.

Lemma lower_idempotent s : Str.lower (Str.lower s) = Str.lower s.
Proof.
  induction s as [|c s IH]; cbn [Str.lower]; [reflexivity|].
  rewrite lower_ascii_idempotent, IH. reflexivity.
Qed.

(** X2. Skill matching ignores the case of the ASCII letters of the text:
    two texts that agree once lower-cased have the same matched skills,
    and a text has those of its lower-cased form. *)
Theorem analyze_skills_ignores_case self text text' :
  (Str.lower text = Str.lower text' ->
   analyze_skills self text = analyze_skills self text')
  /\ analyze_skills self (Str.lower text) = analyze_skills self text.
Proof.
  assert (H : forall t t', Str.lower t = Str.lower t' ->
                           analyze_skills self t = analyze_skills self t').
  { intros t t' E. unfold analyze_skills, found_skills. rewrite E. reflexivity. }
  split; [apply H|]. apply H, lower_idempotent.
Qed.

Lemma analyze_skills_ignores_case_witness :
  analyze_skills (Examples.quiet_scorer 50) "PYTHON and Sql"
  = analyze_skills (Examples.quiet_scorer 50) "python AND SQL".
Proof.
  apply (proj1 (analyze_skills_ignores_case (Examples.quiet_scorer 50)
                  "PYTHON and Sql" "python AND SQL")).
  reflexivity.
Defined.

(** X3. The feedback thresholds in terms of the inputs: the skills message is
    the positive one from six matched skills on, the grammar message is
    the positive one up to three matches of the grammar engine, and
    otherwise names their number. *)
Theorem feedback_thresholds self text ms :
  tool_check self text = Ok ms ->
  exists r,
    generate_score self text = Ok r
    /\ (skills (feedback r) = "Great job on listing relevant skills!"
        <-> (6 <= length (matched_skills r))%nat)
    /\ (skills (feedback r) = "Consider adding more industry-standard skills."
        <-> (length (matched_skills r) <= 5)%nat)
    /\ (grammar (feedback r) = "Excellent grammar!" <-> (length ms <= 3)%nat)
    /\ (grammar (feedback r)
          = "Found " +:+ Str.of_nat (length ms) +:+ " grammar issues."
        <-> (4 <= length ms)%nat).
Proof.
  intros H.
  pose proof (calculate_readability_bounded self text) as Hr.
  destruct (py_round_bounded _ _ _
              (final_score_bounded
                 (Z.min 100 (Z.of_nat (length (analyze_skills self text)) * 10)) _
                 (Z.max 0 (100 - Z.of_nat (length ms) * 5)) Hr)) as [overall Ho].
  destruct (py_round_bounded _ _ _ Hr) as [rounded Hrd].
  eexists. split; [apply (generate_score_report _ _ _ _ _ H Ho Hrd)|].
  cbn [feedback skills grammar matched_skills].
  split; [|split; [|split]].
  - destruct (50 <? _) eqn:E; [apply Z.ltb_lt in E|apply Z.ltb_ge in E];
      (split; [intros; try discriminate; lia|intros; try reflexivity; lia]).
  - destruct (50 <? _) eqn:E; [apply Z.ltb_lt in E|apply Z.ltb_ge in E];
      (split; [intros; try discriminate; lia|intros; try reflexivity; lia]).
  - destruct (80 <? _) eqn:E; [apply Z.ltb_lt in E|apply Z.ltb_ge in E];
      (split; [intros; try discriminate; lia|intros; try reflexivity; lia]).
  - destruct (80 <? _) eqn:E; [apply Z.ltb_lt in E|apply Z.ltb_ge in E];
      (split; [intros; try discriminate; lia|intros; try reflexivity; lia]).
Qed.

Lemma feedback_thresholds_witness :
  exists r,
    generate_score (Examples.noisy_scorer 4) Examples.skills_text = Ok r
    /\ grammar (feedback r) = "Found 4 grammar issues.".
Proof.
  destruct (feedback_thresholds (Examples.noisy_scorer 4) Examples.skills_text
              _ eq_refl) as (r & Hgen & _ & _ & _ & Hfound).
  exists r. split; [exact Hgen|].
  apply (proj2 Hfound). vm_compute. lia.
Defined.

(** [round] of a float strictly between 0 and 100 is between 0 and 100. *)
Lemma py_round_between x z :
  PrimFloat.ltb c0 x = true -> PrimFloat.ltb x c100 = true ->
  py_round x = Ok z -> 0 <= z <= 100.
Proof.
  rewrite !ltb_spec, Prim2SF_c0, Prim2SF_c100. unfold py_round.
  pose proof (Prim2SF_valid x) as V.
  destruct (Prim2SF x) as [s|s| |s m e];
    try (intros A B C; first [discriminate A | discriminate B | discriminate C]).
  destruct s; [intros A; discriminate A|]. intros _.
  cbn [valid_binary] in V. unfold bounded, canonical_mantissa in V.
  apply andb_prop in V. destruct V as [V _].
  apply Z.eqb_eq in V. rewrite fexp64_eq in V.
  pose proof (Zdigits2_gt (Z.pos m) ltac:(lia)) as G. cbn [Zdigits2] in G.
  unfold SFltb, SFcompare. intros Hlt [= <-]. cbn [cond_Zopp].
  assert (He : e <= -46 /\ (e = -46 -> Z.pos m < 7036874417766400)).
  { destruct (e ?= -46) eqn:C; [| |discriminate Hlt].
    - apply Z.compare_eq in C. split; [lia|]. intros _.
      destruct (Pos.compare_cont Eq m 7036874417766400) eqn:C';
        [discriminate Hlt| |discriminate Hlt].
      exact C'.
    - rewrite Z.compare_lt_iff in C. lia. }
  destruct He as [He1 He2].
  destruct e as [|p|p]; try lia. unfold round_pos.
  rewrite Z.shiftr_div_pow2 by lia.
  assert (P : 0 < 2 ^ Z.pos p) by (apply Z.pow_pos_nonneg; lia).
  assert (Hq0 : 0 <= Z.pos m / 2 ^ Z.pos p) by (apply Z.div_pos; lia).
  assert (Hq : Z.pos m / 2 ^ Z.pos p < 100).
  { apply Z.div_lt_upper_bound; [lia|].
    destruct (Z.eq_dec (Z.pos p) 46) as [E|E].
    - rewrite E. specialize (He2 ltac:(lia)). lia.
    - assert (Hd : Z.pos (digits2_pos m) <= 53) by lia.
      assert (2 ^ Z.pos (digits2_pos m) <= 2 ^ 53) by (apply Z.pow_le_mono_r; lia).
      assert (2 ^ 47 <= 2 ^ Z.pos p) by (apply Z.pow_le_mono_r; lia).
      lia. }
  destruct (2 * Z.land (Z.pos m) (Z.ones (Z.pos p)) ?= Z.shiftl 1 (Z.pos p));
    [destruct (Z.even _)| |]; lia.
Qed.

(** X4. The report's [readability_score] is an integer between 0 and 100. *)
Theorem readability_score_range self text ms :
  tool_check self text = Ok ms ->
  exists r, generate_score self text = Ok r /\ 0 <= readability_score r <= 100.
Proof.
  intros H.
  destruct (generate_score_returns self text ms H) as (r & Hgen & _ & Hrd & _).
  exists r. split; [exact Hgen|].
  destruct (calculate_readability_cases self text) as [E | [E | (_ & H0 & H1)]].
  - rewrite E in Hrd. assert (Hz : py_round c0 = Ok 0) by reflexivity.
    rewrite Hz in Hrd. injection Hrd as <-. lia.
  - rewrite E in Hrd. assert (Hz : py_round c100 = Ok 100) by reflexivity.
    rewrite Hz in Hrd. injection Hrd as <-. lia.
  - apply (py_round_between _ _ H0 H1 Hrd).
Qed.

Lemma readability_score_range_witness :
  exists r, generate_score (Examples.quiet_scorer 250) Examples.skills_text = Ok r
            /\ 0 <= readability_score r <= 100.
Proof.
  exact (readability_score_range (Examples.quiet_scorer 250) Examples.skills_text
           _ eq_refl).
Defined.

(** X5. On the empty text, when the tokenizer gives no token, no skill is
    matched: the skills score is 0 and every vocabulary entry is missing. *)
Theorem empty_text_matches_nothing self ms :
  nlp self "" = [] ->
  tool_check self "" = Ok ms ->
  analyze_skills self "" = []
  /\ exists r,
       generate_score self "" = Ok r
       /\ skills_score r = 0
       /\ matched_skills r = []
       /\ length (missing_skills r) = 33%nat
       /\ (forall s, s ∈ missing_skills r <-> s ∈ TARGET_SKILLS).
Proof.
  intros Hnlp H.
  assert (Hfound : found_skills self "" = ∅).
  { unfold found_skills. cbn [Str.lower]. rewrite Hnlp. vm_compute. reflexivity. }
  assert (Hnil : analyze_skills self "" = []).
  { unfold analyze_skills. rewrite Hfound. apply elements_empty. }
  split; [exact Hnil|].
  destruct (generate_score_returns self "" ms H)
    as (r & Hgen & _ & _ & Hsk & _ & Hm & Hmiss & _).
  exists r. split; [exact Hgen|]. rewrite Hnil in *.
  split; [rewrite Hsk; reflexivity|]. split; [exact Hm|].
  rewrite Hmiss. split.
  - vm_compute. reflexivity.
  - intros s. rewrite elem_of_elements, elem_of_difference, !elem_of_list_to_set.
    rewrite elem_of_nil. tauto.
Qed.

Lemma empty_text_matches_nothing_witness :
  analyze_skills (Examples.quiet_scorer 50) "" = [].
Proof.
  exact (proj1 (empty_text_matches_nothing (Examples.quiet_scorer 50) []
                  eq_refl eq_refl)).
Defined.

(** X6. The grammar score is 100 exactly when the engine reports nothing, is 0
    exactly from twenty matches on, and does not increase with the number
    of matches. *)
Theorem grammar_score_extremes self text ms self' text' ms' :
  tool_check self text = Ok ms ->
  tool_check self' text' = Ok ms' ->
  exists score score',
    check_grammar self text = Ok (score, ms)
    /\ check_grammar self' text' = Ok (score', ms')
    /\ (score = 100 <-> ms = [])
    /\ (score = 0 <-> (20 <= length ms)%nat)
    /\ ((length ms <= length ms')%nat -> score' <= score).
Proof.
  intros H H'.
  rewrite (check_grammar_returns _ _ _ H), (check_grammar_returns _ _ _ H').
  eexists. eexists. split; [reflexivity|]. split; [reflexivity|].
  split; [|split].
  - split.
    + intros E. destruct ms; [reflexivity|]. cbn [length] in E. lia.
    + intros ->. reflexivity.
  - lia.
  - lia.
Qed.

Lemma grammar_score_extremes_witness :
  exists score score',
    check_grammar (Examples.noisy_scorer 25) "a" = Ok (score, replicate 25 (Examples.mk_match "Possible spelling mistake"))
    /\ check_grammar (Examples.quiet_scorer 50) "a" = Ok (score', [])
    /\ score = 0 /\ score' = 100.
Proof.
  destruct (grammar_score_extremes (Examples.noisy_scorer 25) "a" _
              (Examples.quiet_scorer 50) "a" _ eq_refl eq_refl)
    as (score & score' & H1 & H2 & _).
  exists score, score'. split; [exact H1|]. split; [exact H2|].
  vm_compute in H1, H2. injection H1 as <-. injection H2 as <-. split; reflexivity.
Defined.

End ScoringMore.

(** * Facts about the job-matching handler of main.py *)

Module MainFacts.
Import Float FloatFacts Main.

(** The percentage of a non-empty required set is a finite float. *)
Lemma percentage_bounded n_matched n_required :
  1 <= Z.of_nat n_required < 2 ^ 53 ->
  exists lo, sf_bounded lo 125 (Prim2SF (percentage n_matched n_required)).
Proof.
  intros Hn. unfold percentage.
  destruct (div_bounded _ _ _ _ _ (of_Z_bounded (Z.of_nat n_matched))
              (of_Z_nonzero (Z.of_nat n_required) ltac:(lia)) ltac:(lia))
    as [lo Hq].
  exists (lo + -46).
  eapply sf_bounded_weaken; [| |apply (mul_bounded _ _ _ _ _ _ Hq c100_bounded)]; lia.
Qed.

Lemma py_int_c0 : py_int c0 = Ok 0.
Proof. reflexivity. Qed.

(** The handler, once both rows are found and [int] of the percentage is
    known. *)
Lemma match_resume_to_job_found rid jid now db resume job score :
  List.find (fun r => resume_pk r =? rid) (resumes db) = Some resume ->
  List.find (fun j => job_pk j =? jid) (job_postings db) = Some job ->
  let resume_skills : gset string :=
    list_to_set (map (fun skill => Str.lower (name skill)) (skills resume)) in
  let required : gset string :=
    list_to_set (map Str.lower (required_skills job)) in
  py_int (if bool_decide (required ≠ ∅)
          then percentage (size (resume_skills ∩ required)) (size required)
          else c0) = Ok score ->
  match_resume_to_job rid jid now db =
  Ok ({| report_match_score := score;
         report_matched_skills := elements (resume_skills ∩ required);
         report_missing_skills := elements (required ∖ resume_skills);
         total_required := Z.of_nat (size required);
         total_matched := Z.of_nat (size (resume_skills ∩ required)) |},
      {| resumes := resumes db;
         job_postings := job_postings db;
         resume_job_matches :=
           (resume_job_matches db ++
            [ {| resume_id := rid; job_id := jid; match_score := score;
                 matched_skills := elements (resume_skills ∩ required);
                 created_at := now |} ])%list |}).
Proof.
  intros Hres Hjob resume_skills required Hint.
  unfold match_resume_to_job. rewrite Hres, Hjob. cbv beta iota zeta.
  fold resume_skills. fold required.
  rewrite Hint, bind_Ok. cbv beta. rewrite bind_Ok. reflexivity.
Qed.

(** X7. A request for a resume or a job that is not stored is answered
    404. *)
Lemma match_resume_to_job_not_found rid jid now db :
  List.find (fun r => resume_pk r =? rid) (resumes db) = None
  \/ List.find (fun j => job_pk j =? jid) (job_postings db) = None ->
  match_resume_to_job rid jid now db
  = Raise (HTTPException 404 "Resume or Job not found").
Proof.
  unfold match_resume_to_job. intros [-> | ->]; [reflexivity|].
  destruct (List.find _ (resumes db)); reflexivity.
Qed.

(** *** The claims on the job matcher *)

(** C3 fails on the code: on the example (required python, sql, docker;
    candidate python, docker, java) the handler returns 66, not 67. *)
Lemma job_match_example_is_not_67 :
  (exists r db',
     match_resume_to_job 1 7 "2026-11-05"
       (Examples.job_db ["python"; "docker"; "java"] ["python"; "sql"; "docker"])
     = Ok (r, db')
     /\ report_match_score r = 66)
  /\ ~ (exists r db',
         match_resume_to_job 1 7 "2026-11-05"
           (Examples.job_db ["python"; "docker"; "java"] ["python"; "sql"; "docker"])
         = Ok (r, db')
         /\ report_match_score r = 67).
Proof.
  split.
  - eexists. eexists. split; [vm_compute; reflexivity|reflexivity].
  - intros (r & db' & H & H67). vm_compute in H. injection H as <- <-.
    discriminate H67.
Qed.

(** C3, amended. For a stored resume and a stored job with a non-empty
    required set (both lower-cased), the handler returns
    [int(len(matched) / len(required) * 100)]: the binary64 percentage cut
    towards zero, not rounded to the nearest integer; the matched skills
    are the candidate's that are required, the missing ones the required
    that the candidate lacks, and the stored row carries the same score.
    On the example the score is 66, matched is python and docker, missing
    is sql. *)
Theorem job_match_truncates :
  (forall rid jid now db resume job,
     List.find (fun r => resume_pk r =? rid) (resumes db) = Some resume ->
     List.find (fun j => job_pk j =? jid) (job_postings db) = Some job ->
     let candidate : gset string :=
       list_to_set (map (fun skill => Str.lower (name skill)) (skills resume)) in
     let required : gset string :=
       list_to_set (map Str.lower (required_skills job)) in
     required ≠ ∅ ->
     Z.of_nat (size required) < 2 ^ 53 ->
     exists r db',
       match_resume_to_job rid jid now db = Ok (r, db')
       /\ py_int (percentage (size (candidate ∩ required)) (size required))
          = Ok (report_match_score r)
       /\ list_to_set (report_matched_skills r) = candidate ∩ required
       /\ list_to_set (report_missing_skills r) = required ∖ candidate
       /\ total_required r = Z.of_nat (size required)
       /\ total_matched r = Z.of_nat (size (candidate ∩ required))
       /\ exists row,
            resume_job_matches db' = (resume_job_matches db ++ [row])%list
            /\ match_score row = report_match_score r)
  /\ (exists r db',
        match_resume_to_job 1 7 "2026-11-05"
          (Examples.job_db ["python"; "docker"; "java"] ["python"; "sql"; "docker"])
        = Ok (r, db')
        /\ report_match_score r = 66
        /\ list_to_set (report_matched_skills r)
           = ({[ "python"; "docker" ]} : gset string)
        /\ report_missing_skills r = ["sql"]).
Proof.
  split.
  - intros rid jid now db resume job Hres Hjob candidate required Hne Hsz.
    assert (Hpos : 1 <= Z.of_nat (size required)).
    { destruct (size required) eqn:E; [|lia].
      apply size_empty_iff in E. apply leibniz_equiv in E. contradiction. }
    destruct (percentage_bounded (size (candidate ∩ required)) (size required)
                (conj Hpos Hsz)) as [lo Hb].
    destruct (py_int_bounded _ _ _ Hb) as [score Hscore].
    eexists. eexists. split.
    + apply (match_resume_to_job_found rid jid now db resume job score Hres Hjob).
      rewrite bool_decide_eq_true_2 by exact Hne. exact Hscore.
    + cbn [report_match_score report_matched_skills report_missing_skills
           total_required total_matched resume_job_matches].
      split; [exact Hscore|].
      rewrite !list_to_set_elements_L.
      repeat (split; [reflexivity|]).
      eexists. split; reflexivity.
  - eexists. eexists. split; [vm_compute; reflexivity|].
    cbn [report_match_score report_matched_skills report_missing_skills].
    split; [reflexivity|]. split; [vm_compute; reflexivity|reflexivity].
Qed.

Lemma job_match_truncates_witness :
  exists r db',
    match_resume_to_job 1 7 "2026-11-05"
      (Examples.job_db ["Python"; "Docker"; "Java"] ["python"; "SQL"; "docker"])
    = Ok (r, db')
    /\ py_int (percentage 2 3) = Ok (report_match_score r).
Proof.
  destruct (proj1 job_match_truncates 1 7 "2026-11-05"
              (Examples.job_db ["Python"; "Docker"; "Java"] ["python"; "SQL"; "docker"])
              _ _ eq_refl eq_refl
              ltac:(vm_compute; discriminate) ltac:(vm_compute; reflexivity))
    as (r & db' & Hm & Hs & _).
  exists r, db'. split; [exact Hm|]. exact Hs.
Defined.

(** C9. When the job's required skills are empty, the handler returns
    (no exception) a match score of 0 and no missing skill, whatever the
    candidate's skills. *)
Theorem job_match_no_required rid jid now db resume job :
  List.find (fun r => resume_pk r =? rid) (resumes db) = Some resume ->
  List.find (fun j => job_pk j =? jid) (job_postings db) = Some job ->
  required_skills job = [] ->
  exists r db',
    match_resume_to_job rid jid now db = Ok (r, db')
    /\ report_match_score r = 0
    /\ report_missing_skills r = []
    /\ report_matched_skills r = []
    /\ total_required r = 0.
Proof.
  intros Hres Hjob Hreq.
  eexists. eexists. split.
  - apply (match_resume_to_job_found rid jid now db resume job 0 Hres Hjob).
    rewrite Hreq. cbn [map list_to_set].
    rewrite bool_decide_eq_false_2 by (intros H; apply H; reflexivity).
    apply py_int_c0.
  - cbn [report_match_score report_matched_skills report_missing_skills
         total_required].
    rewrite Hreq. cbn [map list_to_set].
    rewrite (right_absorb_L ∅ (∩)), empty_difference_L, elements_empty, size_empty.
    repeat split; reflexivity.
Qed.

Lemma job_match_no_required_witness :
  exists r db',
    match_resume_to_job 1 7 "2026-11-05"
      (Examples.job_db ["python"; "docker"; "java"] []) = Ok (r, db')
    /\ report_match_score r = 0
    /\ report_missing_skills r = [].
Proof.
  destruct (job_match_no_required 1 7 "2026-11-05"
              (Examples.job_db ["python"; "docker"; "java"] [])
              _ _ eq_refl eq_refl eq_refl) as (r & db' & Hm & Hs & Hmiss & _).
  exists r, db'. auto.
Defined.

End MainFacts.

(** * Facts about the scoring handlers of main.py *)

Module AnalysisFacts.
Import Analysis.

Lemma map_id_update_first rid new rows :
  score_resume_id new = rid ->
  map score_resume_id (update_first rid new rows) = map score_resume_id rows.
Proof.
  intros Hnew. induction rows as [|row rows IH]; cbn [update_first map]; [reflexivity|].
  destruct (score_resume_id row =? rid) eqn:E; cbn [map].
  - apply Z.eqb_eq in E. congruence.
  - rewrite IH. reflexivity.
Qed.

Lemma find_update_first rid new rows :
  score_resume_id new = rid ->
  List.find (fun s => score_resume_id s =? rid) rows <> None ->
  List.find (fun s => score_resume_id s =? rid) (update_first rid new rows) = Some new.
Proof.
  intros Hnew. induction rows as [|row rows IH]; cbn [update_first List.find].
  - congruence.
  - destruct (score_resume_id row =? rid) eqn:E; cbn [List.find].
    + intros _. rewrite Hnew, Z.eqb_refl. reflexivity.
    + rewrite E. exact IH.
Qed.

Lemma find_app_new rid new rows :
  score_resume_id new = rid ->
  List.find (fun s => score_resume_id s =? rid) rows = None ->
  List.find (fun s => score_resume_id s =? rid) (rows ++ [new]) = Some new.
Proof.
  intros Hnew. induction rows as [|row rows IH]; cbn [app List.find].
  - intros _. rewrite Hnew, Z.eqb_refl. reflexivity.
  - destruct (score_resume_id row =? rid); [discriminate|exact IH].
Qed.

Lemma other_rows_update_first rid new rows other :
  score_resume_id new = rid -> other <> rid ->
  List.filter (fun s => score_resume_id s =? other) (update_first rid new rows)
  = List.filter (fun s => score_resume_id s =? other) rows.
Proof.
  intros Hnew Hne. induction rows as [|row rows IH]; cbn [update_first]; [reflexivity|].
  destruct (score_resume_id row =? rid) eqn:E.
  - apply Z.eqb_eq in E. cbn [List.filter].
    replace (score_resume_id new =? other) with false by (symmetry; apply Z.eqb_neq; lia).
    replace (score_resume_id row =? other) with false by (symmetry; apply Z.eqb_neq; lia).
    reflexivity.
  - cbn [List.filter]. rewrite IH. reflexivity.
Qed.

Lemma find_none_not_in rid rows :
  List.find (fun s => score_resume_id s =? rid) rows = None ->
  ~ In rid (map score_resume_id rows).
Proof.
  induction rows as [|row rows IH]; cbn [List.find map In]; [tauto|].
  destruct (score_resume_id row =? rid) eqn:E; [discriminate|].
  apply Z.eqb_neq in E. intros H [?|?]; [contradiction|]. exact (IH H H0).
Qed.

(** Storing a score replaces or adds: afterwards the first row of the resume
    is the new one; the rows of every other resume are as before; the
    table grows by one row when the resume had none and keeps its length
    otherwise; and if no resume had two rows before, none has after. *)
Theorem save_score_upsert rid analysis now db :
  let db' := save_score rid analysis now db in
  List.find (fun s => score_resume_id s =? rid) (resume_scores db')
    = Some (score_row rid analysis now)
  /\ (forall other, other <> rid ->
        List.filter (fun s => score_resume_id s =? other) (resume_scores db')
        = List.filter (fun s => score_resume_id s =? other) (resume_scores db))
  /\ length (resume_scores db')
     = match List.find (fun s => score_resume_id s =? rid) (resume_scores db) with
       | Some _ => length (resume_scores db)
       | None => S (length (resume_scores db))
       end
  /\ (List.NoDup (map score_resume_id (resume_scores db)) ->
      List.NoDup (map score_resume_id (resume_scores db')))
  /\ resumes db' = resumes db
  /\ personal_info db' = personal_info db.
Proof.
  cbv zeta. unfold save_score. cbn [resume_scores resumes personal_info].
  assert (Hnew : score_resume_id (score_row rid analysis now) = rid) by reflexivity.
  destruct (List.find (fun s => score_resume_id s =? rid) (resume_scores db))
    as [old|] eqn:Hfind.
  - split; [apply find_update_first; [exact Hnew|congruence]|].
    split; [intros other Hne; apply other_rows_update_first; assumption|].
    split.
    + rewrite <- (length_map score_resume_id), map_id_update_first by exact Hnew.
      apply length_map.
    + rewrite map_id_update_first by exact Hnew. auto.
  - split; [apply find_app_new; assumption|].
    split.
    { intros other Hne. rewrite List.filter_app. cbn [List.filter].
      replace (score_resume_id (score_row rid analysis now) =? other) with false
        by (symmetry; apply Z.eqb_neq; cbn; lia).
      apply app_nil_r. }
    split; [rewrite length_app; cbn [length]; lia|].
    split; [|auto].
    intros Hnd. rewrite map_app. cbn [map].
    apply List.NoDup_app; [exact Hnd| |].
    + repeat constructor. intros [].
    + intros x Hin [E|[]]. cbn in E. subst x.
      apply (find_none_not_in _ _ Hfind Hin).
Qed.

Lemma save_score_upsert_witness :
  length (resume_scores
            (save_score 1 {| Scoring.overall_score := 53; Scoring.skills_score := 20;
                             Scoring.readability_score := 50;
                             Scoring.grammar_score := 100;
                             Scoring.matched_skills := [];
                             Scoring.missing_skills := [];
                             Scoring.feedback :=
                               {| Scoring.skills := ""; Scoring.readability := "";
                                  Scoring.grammar := "" |};
                             Scoring.grammar_errors := [] |} "2026-11-05"
               {| resumes := []; personal_info := [];
                  resume_scores := [ {| score_resume_id := 1; overall_score := 10;
                                        skills_score := 10; readability_score := 10;
                                        grammar_score := 10;
                                        analysis_date := "2026-01-01" |} ] |}))
  = 1%nat
  /\ List.NoDup [1].
Proof.
  pose proof (save_score_upsert 1
    {| Scoring.overall_score := 53; Scoring.skills_score := 20;
       Scoring.readability_score := 50; Scoring.grammar_score := 100;
       Scoring.matched_skills := []; Scoring.missing_skills := [];
       Scoring.feedback := {| Scoring.skills := ""; Scoring.readability := "";
                              Scoring.grammar := "" |};
       Scoring.grammar_errors := [] |} "2026-11-05"
    {| resumes := []; personal_info := [];
       resume_scores := [ {| score_resume_id := 1; overall_score := 10;
                             skills_score := 10; readability_score := 10;
                             grammar_score := 10;
                             analysis_date := "2026-01-01" |} ] |})
    as (_ & _ & Hlen & Hnd & _).
  split; [exact Hlen|].
  apply Hnd. repeat constructor. intros [].
Defined.

(** X12. [POST /resumes/{resume_id}/analyze] fails with 404 on an unknown
    resume and with the engine's own exception when the grammar engine
    raises; nothing catches either. *)
Theorem analyze_resume_failures scorer now rid db :
  (List.find (fun r => resume_pk r =? rid) (resumes db) = None ->
   analyze_resume scorer now rid db = Raise (HTTPException 404 "Resume not found"))
  /\ (forall r e,
        List.find (fun r => resume_pk r =? rid) (resumes db) = Some r ->
        Scoring.tool_check scorer (resume_text r) = Raise e ->
        analyze_resume scorer now rid db = Raise e).
Proof.
  unfold analyze_resume. split.
  - intros ->. reflexivity.
  - intros r e -> He.
    rewrite (ScoringFacts.generate_score_raises _ _ _ He). apply bind_Raise.
Qed.

(** X13. When the resume is stored and the grammar engine returns,
    [POST /resumes/{resume_id}/analyze] returns the report of
    [generate_score] on the assembled text and leaves, as the resume's
    first score row, the four scores of that report with the current
    date; the rows of other resumes are untouched, the table grows by at
    most one row, and if no resume had two score rows before, none has
    after. *)
Theorem analyze_resume_stores scorer now rid db r ms :
  List.find (fun r => resume_pk r =? rid) (resumes db) = Some r ->
  Scoring.tool_check scorer (resume_text r) = Ok ms ->
  exists analysis db',
    analyze_resume scorer now rid db = Ok (analysis, db')
    /\ Scoring.generate_score scorer (resume_text r) = Ok analysis
    /\ List.find (fun s => score_resume_id s =? rid) (resume_scores db')
       = Some {| score_resume_id := rid;
                 overall_score := Scoring.overall_score analysis;
                 skills_score := Scoring.skills_score analysis;
                 readability_score := Scoring.readability_score analysis;
                 grammar_score := Scoring.grammar_score analysis;
                 analysis_date := now |}
    /\ (forall other, other <> rid ->
          List.filter (fun s => score_resume_id s =? other) (resume_scores db')
          = List.filter (fun s => score_resume_id s =? other) (resume_scores db))
    /\ (length (resume_scores db) <= length (resume_scores db')
        <= S (length (resume_scores db)))%nat
    /\ (List.NoDup (map score_resume_id (resume_scores db)) ->
        List.NoDup (map score_resume_id (resume_scores db')))
    /\ resumes db' = resumes db.
Proof.
  intros Hr Hms.
  destruct (ScoringFacts.generate_score_returns scorer _ ms Hms)
    as (analysis & Hgen & _).
  exists analysis, (save_score rid analysis now db).
  pose proof (save_score_upsert rid analysis now db)
    as (Hfind & Hother & Hlen & Hnd & Hres & _).
  split.
  - unfold analyze_resume. rewrite Hr, Hgen, bind_Ok. reflexivity.
  - split; [exact Hgen|]. split; [exact Hfind|]. split; [exact Hother|].
    split; [|split; [exact Hnd|exact Hres]].
    rewrite Hlen. destruct (List.find _ (resume_scores db)); lia.
Qed.

Lemma analyze_resume_failures_witness :
  analyze_resume Examples.down_scorer "2026-11-05" 9 AnalysisExamples.db0
    = Raise (HTTPException 404 "Resume not found")
  /\ analyze_resume Examples.down_scorer "2026-11-05" 1 AnalysisExamples.db0
     = Raise Examples.EngineUnavailable.
Proof.
  split.
  - apply (proj1 (analyze_resume_failures Examples.down_scorer "2026-11-05" 9
                    AnalysisExamples.db0)). reflexivity.
  - apply (proj2 (analyze_resume_failures Examples.down_scorer "2026-11-05" 1
                    AnalysisExamples.db0) AnalysisExamples.ada).
    + reflexivity.
    + reflexivity.
Defined.

Lemma analyze_resume_stores_witness :
  exists analysis db',
    analyze_resume (Examples.quiet_scorer 50) "2026-11-05" 1 AnalysisExamples.db0
      = Ok (analysis, db')
    /\ length (resume_scores db') = 2%nat.
Proof.
  destruct (analyze_resume_stores (Examples.quiet_scorer 50) "2026-11-05" 1
              AnalysisExamples.db0 AnalysisExamples.ada [] eq_refl eq_refl)
    as (analysis & db' & Hrun & _).
  exists analysis, db'. split; [exact Hrun|].
  vm_compute in Hrun. injection Hrun as <- <-. reflexivity.
Defined.

(** X14. [POST /analyze-resume/{email}] re-raises every exception [e] of its
    body as a 500 whose detail is [str(e)], and returns what the body
    returns; these are its only outcomes, so it never answers 404. In
    particular an unknown address gives the 500 made of the 404 the body
    raises itself; an address whose row has no resume gives the 500 made
    of the [AttributeError] of [resume.skills]; and an exception of the
    grammar engine on the assembled text gives the 500 made of that
    exception: none of them is answered with a report. *)
Theorem analyze_by_email_never_404 str scorer now addr db :
  (forall e, analyze_by_email_body scorer now addr db = Raise e ->
             analyze_resume_by_email str scorer now addr db
             = Raise (HTTPException 500 (str e)))
  /\ (forall v, analyze_by_email_body scorer now addr db = Ok v ->
                analyze_resume_by_email str scorer now addr db = Ok v)
  /\ (forall e, analyze_resume_by_email str scorer now addr db = Raise e ->
                exists e0, analyze_by_email_body scorer now addr db = Raise e0
                           /\ e = HTTPException 500 (str e0))
  /\ (forall v, analyze_resume_by_email str scorer now addr db = Ok v ->
                analyze_by_email_body scorer now addr db = Ok v)
  /\ (List.find (fun i => bool_decide (email i = Some addr)) (personal_info db) = None ->
      analyze_resume_by_email str scorer now addr db
      = Raise (HTTPException 500 (str (HTTPException 404 "Resume not found"))))
  /\ (forall info,
        List.find (fun i => bool_decide (email i = Some addr)) (personal_info db)
        = Some info ->
        info_resume_id info = None
        \/ (exists rid, info_resume_id info = Some rid
                        /\ List.find (fun r => resume_pk r =? rid) (resumes db) = None) ->
        analyze_resume_by_email str scorer now addr db
        = Raise (HTTPException 500 (str (PyError "AttributeError"))))
  /\ (forall info rid r e,
        List.find (fun i => bool_decide (email i = Some addr)) (personal_info db)
        = Some info ->
        info_resume_id info = Some rid ->
        List.find (fun r => resume_pk r =? rid) (resumes db) = Some r ->
        Scoring.tool_check scorer (email_resume_text info r) = Raise e ->
        analyze_resume_by_email str scorer now addr db
        = Raise (HTTPException 500 (str e))).
Proof.
  unfold analyze_resume_by_email.
  split; [|split; [|split; [|split; [|split; [|split]]]]].
  - intros e ->. reflexivity.
  - intros v ->. reflexivity.
  - intros e. destruct (analyze_by_email_body scorer now addr db) as [v|e'].
    + discriminate.
    + intros [= <-]. exists e'. split; reflexivity.
  - intros v. destruct (analyze_by_email_body scorer now addr db) as [v'|e'].
    + intros [= ->]. reflexivity.
    + discriminate.
  - intros Hnone. unfold analyze_by_email_body. rewrite Hnone. reflexivity.
  - intros info Hinfo Hmissing. unfold analyze_by_email_body. rewrite Hinfo.
    destruct Hmissing as [-> | (rid & -> & ->)]; reflexivity.
  - intros info rid r e Hinfo Hrid Hr He.
    unfold analyze_by_email_body. rewrite Hinfo, Hrid, Hr.
    rewrite (ScoringFacts.generate_score_raises _ _ _ He), bind_Raise.
    reflexivity.
Qed.

Lemma analyze_by_email_never_404_witness :
  analyze_resume_by_email AnalysisExamples.str (Examples.quiet_scorer 50)
    "2026-11-05" "nobody@example.org" AnalysisExamples.db0
  = Raise (HTTPException 500 "404: Resume not found")
  /\ analyze_resume_by_email AnalysisExamples.str Examples.down_scorer
       "2026-11-05" "ada@example.org" AnalysisExamples.db0
     = Raise (HTTPException 500 "EngineUnavailable").
Proof.
  split.
  - apply (proj1 (proj2 (proj2 (proj2 (proj2
             (analyze_by_email_never_404 AnalysisExamples.str
                (Examples.quiet_scorer 50) "2026-11-05"
                "nobody@example.org" AnalysisExamples.db0)))))).
    reflexivity.
  - apply (proj2 (proj2 (proj2 (proj2 (proj2 (proj2
             (analyze_by_email_never_404 AnalysisExamples.str
                Examples.down_scorer "2026-11-05"
                "ada@example.org" AnalysisExamples.db0))))))
             AnalysisExamples.ada_info 1 AnalysisExamples.ada
             Examples.EngineUnavailable).
    + reflexivity.
    + reflexivity.
    + reflexivity.
    + reflexivity.
Defined.

(** X15. For a stored address whose resume is stored, and a grammar engine
    that returns, [POST /analyze-resume/{email}] scores its own text (not
    the one of the other handler) and upserts the score row of the
    resume. *)
Theorem analyze_by_email_stores str scorer now addr db info rid r ms :
  List.find (fun i => bool_decide (email i = Some addr)) (personal_info db) = Some info ->
  info_resume_id info = Some rid ->
  List.find (fun r => resume_pk r =? rid) (resumes db) = Some r ->
  Scoring.tool_check scorer (email_resume_text info r) = Ok ms ->
  exists score_data db',
    analyze_resume_by_email str scorer now addr db = Ok (score_data, db')
    /\ Scoring.generate_score scorer (email_resume_text info r) = Ok score_data
    /\ List.find (fun s => score_resume_id s =? resume_pk r) (resume_scores db')
       = Some {| score_resume_id := resume_pk r;
                 overall_score := Scoring.overall_score score_data;
                 skills_score := Scoring.skills_score score_data;
                 readability_score := Scoring.readability_score score_data;
                 grammar_score := Scoring.grammar_score score_data;
                 analysis_date := now |}
    /\ (length (resume_scores db) <= length (resume_scores db')
        <= S (length (resume_scores db)))%nat.
Proof.
  intros Hinfo Hrid Hr Hms.
  destruct (ScoringFacts.generate_score_returns scorer _ ms Hms)
    as (score_data & Hgen & _).
  exists score_data, (save_score (resume_pk r) score_data now db).
  pose proof (save_score_upsert (resume_pk r) score_data now db)
    as (Hfind & _ & Hlen & _).
  split.
  - unfold analyze_resume_by_email, analyze_by_email_body.
    rewrite Hinfo, Hrid, Hr, Hgen, bind_Ok. reflexivity.
  - split; [exact Hgen|]. split; [exact Hfind|].
    rewrite Hlen. destruct (List.find _ (resume_scores db)); lia.
Qed.

Lemma analyze_by_email_stores_witness :
  exists score_data db',
    analyze_resume_by_email AnalysisExamples.str (Examples.quiet_scorer 50)
      "2026-11-05" "ada@example.org" AnalysisExamples.db0 = Ok (score_data, db')
    /\ length (resume_scores db') = 2%nat.
Proof.
  destruct (analyze_by_email_stores AnalysisExamples.str (Examples.quiet_scorer 50)
              "2026-11-05" "ada@example.org" AnalysisExamples.db0
              AnalysisExamples.ada_info 1 AnalysisExamples.ada []
              eq_refl eq_refl eq_refl eq_refl)
    as (score_data & db' & Hrun & _).
  exists score_data, db'. split; [exact Hrun|].
  vm_compute in Hrun. injection Hrun as <- <-. reflexivity.
Defined.

End AnalysisFacts.

(** * Further facts about the job-matching handler *)

Module MainMore.
Import Float FloatFacts Main MainFacts.

(** With both rows stored and at most [2^53] required skills, the handler
    returns; [int] of the percentage is then defined. *)
Lemma match_score_defined (candidate required : gset string) :
  Z.of_nat (size required) < 2 ^ 53 ->
  exists score,
    py_int (if bool_decide (required ≠ ∅)
            then percentage (size (candidate ∩ required)) (size required)
            else c0) = Ok score.
Proof.
  intros Hsz. case_bool_decide as Hne.
  - assert (Hpos : 1 <= Z.of_nat (size required)).
    { destruct (size required) eqn:E; [|lia].
      apply size_empty_iff in E. apply leibniz_equiv in E. contradiction. }
    destruct (percentage_bounded (size (candidate ∩ required)) (size required)
                (conj Hpos Hsz)) as [lo Hb].
    apply (py_int_bounded _ _ _ Hb).
  - exists 0. apply py_int_c0.
Qed.

(** X8. The matched and the missing skills of the report split the required
    set: they have no skill in common, together they are the required
    skills, and the two counts add up; every matched skill is one of the
    candidate's, no missing skill is. *)
Theorem job_match_partition rid jid now db resume job :
  List.find (fun r => resume_pk r =? rid) (resumes db) = Some resume ->
  List.find (fun j => job_pk j =? jid) (job_postings db) = Some job ->
  let candidate : gset string :=
    list_to_set (map (fun skill => Str.lower (name skill)) (skills resume)) in
  let required : gset string :=
    list_to_set (map Str.lower (required_skills job)) in
  Z.of_nat (size required) < 2 ^ 53 ->
  exists r db',
    match_resume_to_job rid jid now db = Ok (r, db')
    /\ (forall s, s ∈ report_matched_skills r \/ s ∈ report_missing_skills r
                  <-> s ∈ required)
    /\ (forall s, s ∈ report_matched_skills r -> s ∈ report_missing_skills r -> False)
    /\ (forall s, s ∈ report_matched_skills r -> s ∈ candidate)
    /\ (forall s, s ∈ report_missing_skills r -> s ∉ candidate)
    /\ total_matched r + Z.of_nat (length (report_missing_skills r)) = total_required r
    /\ total_matched r = Z.of_nat (length (report_matched_skills r)).
Proof.
  intros Hres Hjob candidate required Hsz.
  destruct (match_score_defined candidate required Hsz) as [score Hscore].
  eexists. eexists. split.
  - apply (match_resume_to_job_found rid jid now db resume job score Hres Hjob).
    exact Hscore.
  - cbn [report_matched_skills report_missing_skills total_required total_matched].
    fold candidate. fold required.
    split; [|split; [|split; [|split; [|split]]]].
    + intros s. rewrite !elem_of_elements, elem_of_intersection, elem_of_difference.
      destruct (decide (s ∈ candidate)); tauto.
    + intros s. rewrite !elem_of_elements, elem_of_intersection, elem_of_difference.
      tauto.
    + intros s. rewrite elem_of_elements, elem_of_intersection. tauto.
    + intros s. rewrite elem_of_elements, elem_of_difference. tauto.
    + change (length (elements (required ∖ candidate)))
        with (size (required ∖ candidate)).
      assert (Hsplit : required = (candidate ∩ required) ∪ (required ∖ candidate)).
      { apply set_eq. intros s.
        rewrite elem_of_union, elem_of_intersection, elem_of_difference.
        destruct (decide (s ∈ candidate)); tauto. }
      assert (Hdis : (candidate ∩ required) ## (required ∖ candidate)).
      { intros s. rewrite elem_of_intersection, elem_of_difference. tauto. }
      pose proof (size_union (C := gset string) _ _ Hdis) as Hun.
      rewrite <- Hsplit in Hun. lia.
    + reflexivity.
Qed.

Lemma job_match_partition_witness :
  exists r db',
    match_resume_to_job 1 7 "2026-11-05"
      (Examples.job_db ["Python"; "Docker"; "Java"] ["python"; "SQL"; "docker"])
    = Ok (r, db')
    /\ total_matched r + Z.of_nat (length (report_missing_skills r))
       = total_required r.
Proof.
  destruct (job_match_partition 1 7 "2026-11-05"
              (Examples.job_db ["Python"; "Docker"; "Java"] ["python"; "SQL"; "docker"])
              _ _ eq_refl eq_refl ltac:(vm_compute; reflexivity))
    as (r & db' & Hm & _ & _ & _ & _ & Hsum & _).
  exists r, db'. split; [exact Hm|exact Hsum].
Defined.

Lemma percentage_zero n :
  1 <= Z.of_nat n < 2 ^ 63 -> py_int (percentage 0 n) = Ok 0.
Proof.
  intros Hn. unfold py_int, percentage.
  rewrite mul_spec, div_spec, Prim2SF_c100.
  change (Prim2SF (of_Z (Z.of_nat 0))) with (S754_zero false).
  pose proof (of_Z_nonzero _ Hn) as Hnz.
  destruct (Prim2SF (of_Z (Z.of_nat n))) as [| | |s m e];
    cbn [sf_nonzero] in Hnz; try contradiction.
  reflexivity.
Qed.

(** X9. When the candidate has none of the required skills (the required set
    not being empty), the score is 0, nothing is matched and every
    required skill is missing. *)
Theorem job_match_no_overlap rid jid now db resume job :
  List.find (fun r => resume_pk r =? rid) (resumes db) = Some resume ->
  List.find (fun j => job_pk j =? jid) (job_postings db) = Some job ->
  let candidate : gset string :=
    list_to_set (map (fun skill => Str.lower (name skill)) (skills resume)) in
  let required : gset string :=
    list_to_set (map Str.lower (required_skills job)) in
  required ≠ ∅ ->
  Z.of_nat (size required) < 2 ^ 53 ->
  candidate ∩ required = ∅ ->
  exists r db',
    match_resume_to_job rid jid now db = Ok (r, db')
    /\ report_match_score r = 0
    /\ report_matched_skills r = []
    /\ total_matched r = 0
    /\ list_to_set (report_missing_skills r) = required.
Proof.
  intros Hres Hjob candidate required Hne Hsz Hdis.
  assert (Hpos : 1 <= Z.of_nat (size required)).
  { destruct (size required) eqn:E; [|lia].
    apply size_empty_iff in E. apply leibniz_equiv in E. contradiction. }
  eexists. eexists. split.
  - apply (match_resume_to_job_found rid jid now db resume job 0 Hres Hjob).
    fold candidate. fold required.
    rewrite bool_decide_eq_true_2 by exact Hne.
    rewrite Hdis, size_empty. apply percentage_zero. lia.
  - cbn [report_match_score report_matched_skills report_missing_skills total_matched].
    fold candidate. fold required. rewrite Hdis, elements_empty, size_empty.
    repeat (split; [reflexivity|]).
    rewrite list_to_set_elements_L. apply set_eq. intros s.
    rewrite elem_of_difference. split; [tauto|]. intros Hs. split; [exact Hs|].
    intros Hc. assert (Hin : s ∈ candidate ∩ required)
      by (apply elem_of_intersection; tauto).
    rewrite Hdis in Hin. apply elem_of_empty in Hin. exact Hin.
Qed.

Lemma job_match_no_overlap_witness :
  exists r db',
    match_resume_to_job 1 7 "2026-11-05"
      (Examples.job_db ["java"] ["python"; "sql"]) = Ok (r, db')
    /\ report_match_score r = 0.
Proof.
  destruct (job_match_no_overlap 1 7 "2026-11-05"
              (Examples.job_db ["java"] ["python"; "sql"])
              _ _ eq_refl eq_refl
              ltac:(vm_compute; discriminate) ltac:(vm_compute; reflexivity)
              ltac:(vm_compute; reflexivity))
    as (r & db' & Hm & Hs & _).
  exists r, db'. split; [exact Hm|exact Hs].
Defined.

Lemma agrees_upto_100 : MatchTable.agrees_upto 100 = true.
Proof. vm_compute. reflexivity. Qed.

Lemma percentage_small m n :
  (1 <= n <= 100)%nat -> (m <= n)%nat ->
  py_int (percentage m n) = Ok (MatchTable.expected m n).
Proof.
  intros Hn Hm. pose proof agrees_upto_100 as H.
  unfold MatchTable.agrees_upto in H. rewrite forallb_forall in H.
  specialize (H n ltac:(apply in_seq; lia)).
  rewrite forallb_forall in H. specialize (H m ltac:(apply in_seq; lia)).
  unfold MatchTable.agrees in H.
  destruct (py_int (percentage m n)) as [z|e]; [|discriminate].
  apply Z.eqb_eq in H. congruence.
Qed.

Lemma expected_range m n :
  (1 <= n)%nat -> (m <= n)%nat ->
  0 <= MatchTable.expected m n <= 100
  /\ (MatchTable.expected m n = 100 <-> m = n).
Proof.
  intros Hn Hm. unfold MatchTable.expected.
  assert (Hq : 0 <= 100 * Z.of_nat m / Z.of_nat n <= 100).
  { split; [apply Z.div_pos; lia|].
    apply Z.div_le_upper_bound; lia. }
  assert (Hfull : 100 * Z.of_nat m / Z.of_nat n = 100 <-> m = n).
  { split.
    - intros E. destruct (Nat.eq_dec m n) as [|Hne]; [assumption|exfalso].
      assert (100 * Z.of_nat m / Z.of_nat n < 100); [|lia].
      apply Z.div_lt_upper_bound; lia.
    - intros ->. replace (100 * Z.of_nat n) with (100 * Z.of_nat n) by reflexivity.
      apply Z.div_mul. lia. }
  destruct (MatchTable.is_short m n) eqn:E.
  - clear Hq Hfull Hn Hm.
    unfold MatchTable.is_short in E. apply existsb_exists in E.
    destruct E as ([a b] & Hin & E).
    apply andb_prop in E. destruct E as [Ea Eb].
    apply Nat.eqb_eq in Ea, Eb. subst m n.
    unfold MatchTable.short_pairs in Hin. cbn [In] in Hin.
    destruct Hin as [E|[E|[E|[E|[]]]]]; injection E as <- <-;
      match goal with
      | |- context [100 * Z.of_nat ?a / Z.of_nat ?b] =>
          let v := eval vm_compute in (100 * Z.of_nat a / Z.of_nat b) in
          change (100 * Z.of_nat a / Z.of_nat b) with v
      end; (split; [|split]; lia).
  - rewrite Z.sub_0_r. split; [exact Hq|exact Hfull].
Qed.

(** X10. For a non-empty required set of at most 100 skills, the score is the
    integer quotient of [100 * matched] by [required], except that it is
    one less when (matched, required) is (29, 50), (29, 100), (57, 100) or
    (58, 100), where the binary64 product falls just below the integer.
    It lies between 0 and 100, and is 100 exactly when every required
    skill is matched. *)
Theorem job_match_score_small rid jid now db resume job :
  List.find (fun r => resume_pk r =? rid) (resumes db) = Some resume ->
  List.find (fun j => job_pk j =? jid) (job_postings db) = Some job ->
  let candidate : gset string :=
    list_to_set (map (fun skill => Str.lower (name skill)) (skills resume)) in
  let required : gset string :=
    list_to_set (map Str.lower (required_skills job)) in
  required ≠ ∅ ->
  (size required <= 100)%nat ->
  exists r db',
    match_resume_to_job rid jid now db = Ok (r, db')
    /\ report_match_score r
       = 100 * total_matched r / total_required r
         - (if MatchTable.is_short (size (candidate ∩ required)) (size required)
            then 1 else 0)
    /\ 0 <= report_match_score r <= 100
    /\ (report_match_score r = 100 <-> required ⊆ candidate).
Proof.
  intros Hres Hjob candidate required Hne Hsz.
  assert (Hpos : (1 <= size required)%nat).
  { destruct (size required) eqn:E; [|lia].
    apply size_empty_iff in E. apply leibniz_equiv in E. contradiction. }
  assert (Hle : (size (candidate ∩ required) <= size required)%nat).
  { apply subseteq_size. intros s. rewrite elem_of_intersection. tauto. }
  eexists. eexists. split.
  - apply (match_resume_to_job_found rid jid now db resume job
             (MatchTable.expected (size (candidate ∩ required)) (size required))
             Hres Hjob).
    fold candidate. fold required.
    rewrite bool_decide_eq_true_2 by exact Hne.
    apply percentage_small; [lia|exact Hle].
  - cbn [report_match_score total_matched total_required].
    fold candidate. fold required.
    split; [reflexivity|].
    destruct (expected_range (size (candidate ∩ required)) (size required)
                ltac:(lia) Hle) as [Hrange Hfull].
    split; [exact Hrange|]. rewrite Hfull. split.
    + intros E s Hs.
      assert (Heq : candidate ∩ required = required).
      { apply set_subseteq_size_eq.
        - intros x. rewrite elem_of_intersection. tauto.
        - lia. }
      rewrite <- Heq in Hs. apply elem_of_intersection in Hs. tauto.
    + intros Hsub. f_equal. apply set_eq. intros s.
      rewrite elem_of_intersection. split; [tauto|]. intros Hs. split; [|exact Hs].
      apply Hsub, Hs.
Qed.

Lemma job_match_score_small_witness :
  exists r db',
    match_resume_to_job 1 7 "2026-11-05"
      (Examples.job_db ["python"; "docker"] ["python"; "docker"]) = Ok (r, db')
    /\ report_match_score r = 100.
Proof.
  destruct (job_match_score_small 1 7 "2026-11-05"
              (Examples.job_db ["python"; "docker"] ["python"; "docker"])
              _ _ eq_refl eq_refl
              ltac:(vm_compute; discriminate) ltac:(vm_compute; lia))
    as (r & db' & Hm & _ & _ & Hfull).
  exists r, db'. split; [exact Hm|].
  apply Hfull. intros s Hs. exact Hs.
Defined.

Lemma match_resume_to_job_not_found_witness :
  match_resume_to_job 2 7 "2026-11-05"
    (Examples.job_db ["python"] ["python"])
  = Raise (HTTPException 404 "Resume or Job not found").
Proof.
  apply match_resume_to_job_not_found. left. reflexivity.
Defined.

(** A call that returns tells that both rows were found, what the score
    is, and what was stored: the stored table is the old one with one row
    at its end. *)
Lemma match_resume_to_job_inv rid jid now db r db' :
  match_resume_to_job rid jid now db = Ok (r, db') ->
  exists resume job,
    List.find (fun r => resume_pk r =? rid) (resumes db) = Some resume
    /\ List.find (fun j => job_pk j =? jid) (job_postings db) = Some job
    /\ py_int
         (if bool_decide
               ((list_to_set (map Str.lower (required_skills job)) : gset string) ≠ ∅)
          then percentage
                 (size ((list_to_set (map (fun skill => Str.lower (name skill))
                                          (skills resume)) : gset string)
                        ∩ list_to_set (map Str.lower (required_skills job))))
                 (size (list_to_set (map Str.lower (required_skills job))
                        : gset string))
          else c0) = Ok (report_match_score r)
    /\ resumes db' = resumes db
    /\ job_postings db' = job_postings db
    /\ resume_job_matches db'
       = (resume_job_matches db ++
          [ {| resume_id := rid; job_id := jid;
               match_score := report_match_score r;
               matched_skills := report_matched_skills r;
               created_at := now |} ])%list.
Proof.
  unfold match_resume_to_job.
  destruct (List.find _ (resumes db)) as [resume|]; [|discriminate].
  destruct (List.find _ (job_postings db)) as [job|]; [|discriminate].
  cbv beta iota zeta.
  destruct (py_int _) as [score|e] eqn:Hint.
  - rewrite bind_Ok. cbv beta. rewrite bind_Ok.
    intros [= <- <-]. exists resume, job.
    cbn [report_match_score report_matched_skills
         resumes job_postings resume_job_matches].
    split; [reflexivity|]. split; [reflexivity|]. split; [exact Hint|].
    split; [reflexivity|]. split; reflexivity.
  - rewrite bind_Raise. discriminate.
Qed.

(** X11. The handler keeps a history rather than one row per pair. A call
    that returns leaves resumes and jobs as they were and puts one row at
    the end of the match table, after all the earlier rows, which it keeps
    unchanged and in order: the row holds the two ids, the reported score,
    the reported matched skills and the time of the call. Asked again for
    the same pair, it returns the same report and puts a second row, equal
    to the first but for its time, after the first; nothing is replaced. *)
Theorem job_match_repeat rid jid now now' db r db' :
  match_resume_to_job rid jid now db = Ok (r, db') ->
  let row := fun t =>
    {| resume_id := rid; job_id := jid;
       match_score := report_match_score r;
       matched_skills := report_matched_skills r;
       created_at := t |} in
  resumes db' = resumes db
  /\ job_postings db' = job_postings db
  /\ resume_job_matches db' = (resume_job_matches db ++ [row now])%list
  /\ exists db'',
       match_resume_to_job rid jid now' db' = Ok (r, db'')
       /\ resumes db'' = resumes db
       /\ job_postings db'' = job_postings db
       /\ resume_job_matches db''
          = (resume_job_matches db ++ [row now; row now'])%list.
Proof.
  intros H row.
  pose proof H as Hrun.
  apply match_resume_to_job_inv in H.
  destruct H as (resume & job & Hres & Hjob & Hint & Hr & Hj & Hrows).
  split; [exact Hr|]. split; [exact Hj|]. split; [exact Hrows|].
  pose proof (match_resume_to_job_found rid jid now db resume job _ Hres Hjob Hint)
    as Hfirst.
  rewrite Hfirst in Hrun. injection Hrun as Hreport _.
  rewrite <- Hr in Hres. rewrite <- Hj in Hjob.
  pose proof (match_resume_to_job_found rid jid now' db' resume job _ Hres Hjob Hint)
    as Hagain.
  eexists. split; [rewrite Hagain, <- Hreport; reflexivity|].
  cbn [resumes job_postings resume_job_matches].
  split; [exact Hr|]. split; [exact Hj|].
  rewrite Hrows, <- app_assoc. cbn [app]. unfold row.
  rewrite <- Hreport. cbn [report_match_score report_matched_skills].
  reflexivity.
Qed.

Lemma job_match_repeat_witness :
  exists r db' db'',
    match_resume_to_job 1 7 "2026-11-05"
      (Examples.job_db ["python"] ["python"; "sql"]) = Ok (r, db')
    /\ match_resume_to_job 1 7 "2026-11-06" db' = Ok (r, db'')
    /\ resume_job_matches db''
       = [ {| resume_id := 1; job_id := 7;
              match_score := report_match_score r;
              matched_skills := report_matched_skills r;
              created_at := "2026-11-05" |};
           {| resume_id := 1; job_id := 7;
              match_score := report_match_score r;
              matched_skills := report_matched_skills r;
              created_at := "2026-11-06" |} ].
Proof.
  assert (H : exists r db',
            match_resume_to_job 1 7 "2026-11-05"
              (Examples.job_db ["python"] ["python"; "sql"]) = Ok (r, db')).
  { eexists. eexists. vm_compute. reflexivity. }
  destruct H as (r & db' & H).
  destruct (job_match_repeat 1 7 "2026-11-05" "2026-11-06" _ r db' H)
    as (_ & _ & _ & db'' & Hagain & _ & _ & Hrows).
  exists r, db', db''. split; [exact H|]. split; [exact Hagain|exact Hrows].
Defined.

End MainMore.

(** * Facts about the fence cutting *)

Module FenceFacts.
Import Fence.

Lemma append_cons x (a b : string) : String x a +:+ b = String x (a +:+ b).
Proof. reflexivity. Qed.

Lemma append_nil_l (b : string) : "" +:+ b = b.
Proof. reflexivity. Qed.

Lemma append_assoc (a b c : string) : (a +:+ b) +:+ c = a +:+ (b +:+ c).
Proof.
  induction a as [|x a IH]; [reflexivity|].
  rewrite !append_cons, IH. reflexivity.
Qed.

Lemma append_nil_r (a : string) : a +:+ "" = a.
Proof.
  induction a as [|x a IH]; [reflexivity|]. rewrite append_cons, IH. reflexivity.
Qed.

Lemma prefix_append (a b : string) : String.prefix a (a +:+ b) = true.
Proof.
  induction a as [|x a IH]; [rewrite append_nil_l; destruct b; reflexivity|].
  rewrite append_cons. cbn [String.prefix].
  destruct (ascii_dec x x); [exact IH|contradiction].
Qed.

Lemma split_from_skip sep cur rest (a : string) :
  split_from sep (String.length a) cur (a +:+ rest) = split_from sep 0 cur rest.
Proof.
  induction a as [|x a IH]; [reflexivity|].
  rewrite append_cons. cbn [String.length split_from]. exact IH.
Qed.

Lemma split_from_no_early sep (a : string) : forall cur t,
  no_early sep a t = true ->
  split_from sep 0 cur (a +:+ t) = split_from sep 0 (cur +:+ a) t.
Proof.
  induction a as [|x a IH]; intros cur t H.
  - rewrite append_nil_l, append_nil_r. reflexivity.
  - cbn [no_early] in H. apply andb_prop in H. destruct H as [H1 H2].
    apply Bool.negb_true_iff in H1.
    rewrite append_cons in *.
    cbn [split_from]. rewrite H1, (IH _ _ H2), append_assoc. reflexivity.
Qed.

Lemma split_from_match sep' x cur rest :
  split_from (String x sep') 0 cur (String x sep' +:+ rest)
  = cur :: split_from (String x sep') 0 "" rest.
Proof.
  pose proof (prefix_append (String x sep') rest) as P.
  rewrite append_cons in *. cbn [split_from]. rewrite P.
  replace (String.length (String x sep') - 1)%nat with (String.length sep')
    by (cbn [String.length]; lia).
  rewrite split_from_skip. reflexivity.
Qed.

(** Splitting at the first occurrence. *)
Lemma split_first sep' x pre rest :
  no_early (String x sep') pre (String x sep' +:+ rest) = true ->
  split (String x sep') (pre +:+ String x sep' +:+ rest)
  = pre :: split (String x sep') rest.
Proof.
  intros H. unfold split.
  rewrite (split_from_no_early _ _ _ _ H), split_from_match. reflexivity.
Qed.

Lemma contains_append sep pre rest :
  Str.contains sep (pre +:+ sep +:+ rest) = true.
Proof.
  induction pre as [|x pre IH].
  - rewrite append_nil_l. pose proof (prefix_append sep rest) as P.
    destruct (sep +:+ rest); cbn [Str.contains]; rewrite P; reflexivity.
  - rewrite append_cons. cbn [Str.contains]. rewrite IH. apply Bool.orb_true_r.
Qed.

Lemma no_early_nil sep' x (s : string) :
  Str.contains (String x sep') s = false -> no_early (String x sep') s "" = true.
Proof.
  induction s as [|c s IH]; [reflexivity|].
  cbn [Str.contains no_early]. rewrite append_nil_r.
  intros H. apply Bool.orb_false_iff in H. destruct H as [H1 H2].
  rewrite H1, (IH H2). reflexivity.
Qed.

Lemma split_none sep' x s :
  Str.contains (String x sep') s = false -> split (String x sep') s = [s].
Proof.
  intros H. unfold split.
  rewrite <- (append_nil_r s) at 1.
  rewrite (split_from_no_early _ _ _ _ (no_early_nil _ _ _ H)). reflexivity.
Qed.

(** X16. When the answer is some text, the opening fence, a body, the
    closing fence and a rest, the opening fence being the first of its
    kind, the closing fence the first triple backquote after it, and no
    further opening fence following, the text taken out is the body. *)
Theorem unfence_fenced pre body post :
  no_early fence_json pre (fence_json +:+ body +:+ fence +:+ post) = true ->
  no_early fence body (fence +:+ post) = true ->
  Str.contains fence_json (body +:+ fence +:+ post) = false ->
  unfence (pre +:+ fence_json +:+ body +:+ fence +:+ post) = body.
Proof.
  intros H1 H2 H3. unfold unfence.
  rewrite contains_append.
  unfold fence_json in *. rewrite (split_first _ _ _ _ H1).
  cbn [nth]. rewrite (split_none _ _ _ H3). cbn [nth].
  unfold fence in *. rewrite (split_first _ _ _ _ H2). reflexivity.
Qed.

Theorem unfence_plain text :
  Str.contains fence_json text = false -> unfence text = text.
Proof. intros H. unfold unfence. rewrite H. reflexivity. Qed.

Lemma prefix_mono sep (a t : string) :
  String.prefix sep a = true -> String.prefix sep (a +:+ t) = true.
Proof.
  revert a. induction sep as [|x sep IH]; intros a H.
  - destruct (a +:+ t); reflexivity.
  - destruct a as [|y a]; [discriminate|].
    rewrite append_cons. cbn [String.prefix] in *.
    destruct (ascii_dec x y); [apply IH, H|discriminate].
Qed.

Lemma no_early_contains sep' x (cur t : string) :
  no_early (String x sep') cur t = true -> Str.contains (String x sep') cur = false.
Proof.
  induction cur as [|c cur IH]; [reflexivity|].
  cbn [no_early Str.contains]. intros H.
  apply andb_prop in H. destruct H as [H1 H2].
  apply Bool.negb_true_iff in H1. rewrite (IH H2), Bool.orb_false_r.
  destruct (String.prefix (String x sep') (String c cur)) eqn:E; [|reflexivity].
  rewrite (prefix_mono _ _ t E) in H1. discriminate.
Qed.

Lemma snoc_append (cur : string) c t :
  (cur +:+ String c "") +:+ t = cur +:+ String c t.
Proof. rewrite append_assoc. reflexivity. Qed.

Lemma no_early_snoc sep (cur : string) c t :
  no_early sep cur (String c t) = true ->
  String.prefix sep (String c t) = false ->
  no_early sep (cur +:+ String c "") t = true.
Proof.
  intros H Hp. induction cur as [|y cur IH].
  - rewrite append_nil_l. cbn [no_early].
    change (String c "" +:+ t) with (String c t). rewrite Hp. reflexivity.
  - cbn [no_early] in H. apply andb_prop in H. destruct H as [H1 H2].
    rewrite append_cons. cbn [no_early].
    rewrite (IH H2), Bool.andb_true_r.
    rewrite append_cons, snoc_append. rewrite append_cons in H1. exact H1.
Qed.

Lemma first_piece_clean sep' x (s : string) : forall cur,
  no_early (String x sep') cur s = true ->
  Str.contains (String x sep') (nth 0 (split_from (String x sep') 0 cur s) "") = false.
Proof.
  induction s as [|c s IH]; intros cur H.
  - cbn [split_from nth]. apply (no_early_contains _ _ _ _ H).
  - cbn [split_from].
    destruct (String.prefix (String x sep') (String c s)) eqn:E.
    + cbn [nth]. apply (no_early_contains _ _ _ _ H).
    + apply IH, no_early_snoc; assumption.
Qed.

(** X17. Whatever follows an opening fence, the text taken out has no
    triple backquote left. *)
Theorem unfence_has_no_fence text :
  Str.contains fence_json text = true ->
  Str.contains fence (unfence text) = false.
Proof.
  intros H. unfold unfence. rewrite H. unfold split, fence.
  apply first_piece_clean. reflexivity.
Qed.

Lemma unfence_fenced_witness :
  unfence ("Here it is: " +:+ fence_json +:+ "{}" +:+ fence +:+ " Done.") = "{}".
Proof.
  apply unfence_fenced; reflexivity.
Defined.

Lemma unfence_has_no_fence_witness :
  Str.contains fence (unfence "```json[1]````json```") = false.
Proof.
  apply unfence_has_no_fence. reflexivity.
Defined.

End FenceFacts.

